(** * Review service (src/main.py): a shallow embedding and its properties

    The program is a Flask application with three routes, [save_review],
    [get_reviews] and [search_reviews], over a MongoDB collection, a
    [cachetools.TTLCache] of summaries and an external summarizer
    ([gerar_resumo]).  Handlers are embedded as state-passing functions on a
    [World]; exceptions that escape a handler are results of their own. *)

From Stdlib Require Import List String Ascii ZArith Bool Lia Arith.
From Stdlib Require Import Floats Sorting.Permutation Sorting.Sorted.
Import ListNotations.
Local Open Scope string_scope.
Local Open Scope Z_scope.
Local Open Scope list_scope.

(** ** JSON values and documents *)

(** The values a request body or a stored document can hold.  The model keeps
    the JSON scalars the handlers distinguish: null ([None]), booleans,
    integers and strings; floats, arrays and nested objects are left out. *)
Inductive json : Type :=
| JNull
| JBool (b : bool)
| JInt (n : Z)
| JStr (s : string).

(** A document (a Python dict / BSON document): keys in insertion order. *)
Definition doc : Type := list (string * json).

Fixpoint doc_get (k : string) (d : doc) : option json :=
  match d with
  | [] => None
  | (k', v) :: d' => if String.eqb k k' then Some v else doc_get k d'
  end.

(** [data.get(k)]: the value, or [None] when the key is missing. *)
Definition dict_get (k : string) (d : doc) : json :=
  match doc_get k d with
  | Some v => v
  | None => JNull
  end.

Definition doc_remove (k : string) (d : doc) : doc :=
  filter (fun kv => negb (String.eqb k (fst kv))) d.

(** Python truthiness, as used by [not x] and [x and y]. *)
Definition truthy (v : json) : bool :=
  match v with
  | JNull => false
  | JBool b => b
  | JInt n => negb (Z.eqb n 0)
  | JStr s => negb (String.eqb s EmptyString)
  end.

(** ** Results of a handler *)

Inductive exn : Type :=
| TypeError
| KeyError (k : string)
| AttributeError
| SummarizerError.

(** The [media] field of a response: the literal [0] of the empty answer, or
    the float [round(total / count, 2)], kept as the expression it is. *)
Inductive media : Type :=
| MediaZero
| MediaRound2 (total : Z) (count : nat).

Inductive body : Type :=
| ErrorBody (msg : string)
| MessageBody (msg : string)
| ReviewsBody (resumo_avaliacao : string) (media_nota : media) (avaliacoes : list doc)
| SearchBody (avaliacoes : list doc).

(** What a request ends in: [jsonify(body), status], or an exception that
    leaves the handler. *)
Inductive result : Type :=
| Response (b : body) (status : Z)
| Raised (e : exn).

(** ** Floating point *)

(** A binary64 number, [mant * 2 ^ expo]: zero, or a normal number with
    [2^52 <= |mant| < 2^53]. *)
Record double : Type := mkDouble {
  mant : Z;
  expo : Z
}.

(** The integer nearest to [a / b] for [b > 0], ties to the even one. *)
Definition rne_div (a b : Z) : Z :=
  let q := a / b in
  let r := a mod b in
  if 2 * r <? b then q
  else if b <? 2 * r then q + 1
  else if Z.even q then q else q + 1.

(** [floor (log2 (a / b))] for positive [a] and [b]. *)
Definition ilog2_ratio (a b : Z) : Z :=
  let d := Z.log2 a - Z.log2 b in
  if b * 2 ^ Z.max 0 d <=? a * 2 ^ Z.max 0 (- d) then d else d - 1.

(** [a / b] on Python integers: true division, which gives the double
    nearest to the quotient, ties to even.  [b] is not 0 where the program
    divides (line 155 divides by the length of a non-empty list); overflow
    and subnormal results, out of reach of a sum of ratings over their
    count, are left out. *)
Definition py_truediv (a b : Z) : double :=
  if a =? 0 then mkDouble 0 0
  else
    let s := Z.sgn a * Z.sgn b in
    let e := ilog2_ratio (Z.abs a) (Z.abs b) - 52 in
    let m := rne_div (Z.abs a * 2 ^ Z.max 0 (- e)) (Z.abs b * 2 ^ Z.max 0 e) in
    if m =? 2 ^ 53 then mkDouble (s * 2 ^ 52) (e + 1) else mkDouble (s * m) e.

(** The number of hundredths [round(x, 2)] keeps: the integer nearest to
    the exact value of [100 * x], ties to even. *)
Definition hundredths (x : double) : Z :=
  rne_div (100 * mant x * 2 ^ Z.max 0 (expo x)) (2 ^ Z.max 0 (- expo x)).

(** [round(x, 2)] on a float: the decimal with two places nearest to the
    exact value of [x], then the double nearest to that decimal. *)
Definition py_round2 (x : double) : double :=
  py_truediv (hundredths x) 100.

(** The number a [media] field stands for. *)
Definition media_value (m : media) : double :=
  match m with
  | MediaZero => mkDouble 0 0
  | MediaRound2 total count => py_round2 (py_truediv total (Z.of_nat count))
  end.

(** The same number as the kernel's binary64 arithmetic writes it. *)
Definition to_spec (x : double) : spec_float :=
  if mant x =? 0 then S754_zero false
  else S754_finite (mant x <? 0) (Z.to_pos (Z.abs (mant x))) (expo x).

(** Division of two small integers by the processor. *)
Definition hardware_div (a b : Z) : spec_float :=
  Prim2SF (PrimFloat.div (PrimFloat.of_uint63 (Uint63.of_Z a))
                         (PrimFloat.of_uint63 (Uint63.of_Z b))).

(** The same division by the Standard Library's specification of
    binary64 arithmetic. *)
Definition spec_div (a b : Z) : spec_float :=
  SFdiv 53 1024 (binary_normalize 53 1024 a 0 false)
                (binary_normalize 53 1024 b 0 false).

Definition spec_eqb (x y : spec_float) : bool :=
  match x, y with
  | S754_zero s, S754_zero s' => Bool.eqb s s'
  | S754_finite s m e, S754_finite s' m' e' =>
      Bool.eqb s s' && Pos.eqb m m' && Z.eqb e e'
  | _, _ => false
  end.

(** The integers from [lo], [n] of them. *)
Fixpoint z_range (lo : Z) (n : nat) : list Z :=
  match n with
  | O => []
  | S n' => lo :: z_range (lo + 1) n'
  end.

(** ** The summary cache *)

Record entry : Type := mkEntry {
  e_key : string;
  e_value : string;
  e_expires : Z
}.

Module TTLCache.

(** Line 39: [cachetools.TTLCache(maxsize=100, ttl=3600)]. *)
Definition maxsize : nat := 100.
Definition ttl : Z := 3600.

(** Modelled from the spec: the class [cachetools.TTLCache] is third-party
    code, not under src/.  The entries of the cache, one per key, are kept
    in order of use, least recently used first. *)
Definition t : Type := list entry.

Definition empty : t := [].

(** Modelled from the spec: an entry is live while
    [now - inserted_at < TTL], which is [now < e_expires] with
    [e_expires = inserted_at + ttl]. *)
Definition live (now : Z) (e : entry) : bool := now <? e_expires e.

Definition has_key (k : string) (e : entry) : bool := String.eqb k (e_key e).

Definition lookup (k : string) (c : t) : option entry :=
  find (has_key k) c.

Definition remove (k : string) (c : t) : t :=
  filter (fun e => negb (has_key k e)) c.

(** Modelled from the spec: the purge of the expired entries. *)
Definition expire (now : Z) (c : t) : t := filter (live now) c.

(** Modelled from the spec: [cache.get(key)] returns the value of a live
    entry, which becomes the most recently used one; an absent or expired
    entry gives [None] and leaves the cache as it is. *)
Definition get (now : Z) (k : string) (c : t) : option string * t :=
  match lookup k c with
  | Some e =>
      if live now e then (Some (e_value e), remove k c ++ [e])
      else (None, c)
  | None => (None, c)
  end.

(** Modelled from the spec: [cache[key] = value] purges the expired
    entries, makes room for a new key by evicting the least recently used
    entries while the cache is full, and stores the value stamped with the
    current time as the most recently used entry. *)
Definition set (now : Z) (k : string) (v : string) (c : t) : t :=
  let c1 := expire now c in
  let c2 :=
    match lookup k c1 with
    | Some _ => c1
    | None => skipn (S (List.length c1) - maxsize) c1
    end in
  remove k c2 ++ [mkEntry k v (now + ttl)].

End TTLCache.

(** ** The world: store, cache and the log of summarizer invocations *)

Record World : Type := mkWorld {
  collection : option (list doc);   (* [None]: the connection failed at start-up *)
  cache : TTLCache.t;
  calls : list (list json)          (* inputs of [gerar_resumo], oldest first *)
}.

Definition set_collection (w : World) (c : option (list doc)) : World :=
  mkWorld c (cache w) (calls w).

Definition set_cache (w : World) (c : TTLCache.t) : World :=
  mkWorld (collection w) c (calls w).

Definition log_call (w : World) (comentarios : list json) : World :=
  mkWorld (collection w) (cache w) (calls w ++ [comentarios]).

Definition db_error : result :=
  Response (ErrorBody "Erro de conexão com o banco de dados") 500.

(** ** save_review *)

(** [1 <= nota <= 5]: integers (and booleans, which are integers in Python)
    compare; [None] and strings raise [TypeError]. *)
Definition nota_in_range (nota : json) : option bool :=
  match nota with
  | JInt n => Some ((1 <=? n) && (n <=? 5))
  | JBool b => let n := if b then 1 else 0 in Some ((1 <=? n) && (n <=? 5))
  | JNull | JStr _ => None
  end.

(** [produto_id and nome_usuario and 1 <= nota <= 5 and avaliacao], with its
    short circuit: the comparison runs only after the first two are truthy. *)
Definition valid_review (produto_id nome_usuario nota avaliacao : json)
  : option bool :=
  if negb (truthy produto_id) then Some false
  else if negb (truthy nome_usuario) then Some false
  else match nota_in_range nota with
       | None => None
       | Some false => Some false
       | Some true => Some (truthy avaliacao)
       end.

(** Lines 83-103, for a body that is a JSON object.  [insert_one] appends
    the record to the collection and is taken to succeed (the driver
    refuses an integer that does not fit eight bytes); the [_id] the
    driver adds is left out, every query of the program projects it
    away. *)
Definition save_review (w : World) (data : doc) : World * result :=
  match collection w with
  | None => (w, db_error)
  | Some docs =>
      let produto_id := dict_get "produto_id" data in
      let nome_usuario := dict_get "nome_usuario" data in
      let nota := dict_get "nota" data in
      let avaliacao := dict_get "avaliacao" data in
      match valid_review produto_id nome_usuario nota avaliacao with
      | None => (w, Raised TypeError)
      | Some false => (w, Response (ErrorBody "Dados inválidos") 400)
      | Some true =>
          let review := [("produto_id", produto_id);
                         ("nome_usuario", nome_usuario);
                         ("nota", nota);
                         ("avaliacao", avaliacao)] in
          (set_collection w (Some (docs ++ [review])),
           Response (MessageBody "Avaliação salva com sucesso") 201)
      end
  end.

(** ** Exceptions inside a handler *)

Inductive M (A : Type) : Type :=
| Ok (a : A)
| Err (e : exn).
Arguments Ok {A} a.
Arguments Err {A} e.

Definition bind {A B : Type} (m : M A) (f : A -> M B) : M B :=
  match m with
  | Ok a => f a
  | Err e => Err e
  end.

Notation "x <- m ;; k" := (bind m (fun x => k))
  (at level 61, m at next level, right associativity).

(** A list comprehension whose element expression can raise. *)
Fixpoint mapM {A B : Type} (f : A -> M B) (l : list A) : M (list B) :=
  match l with
  | [] => Ok []
  | a :: l' => b <- f a ;; bs <- mapM f l' ;; Ok (b :: bs)
  end.

(** A list comprehension with a condition that can raise. *)
Fixpoint filterM {A : Type} (f : A -> M bool) (l : list A) : M (list A) :=
  match l with
  | [] => Ok []
  | a :: l' => b <- f a ;; r <- filterM f l' ;; Ok (if b then a :: r else r)
  end.

(** [d[k]]: [KeyError] when the key is missing. *)
Definition doc_field (k : string) (d : doc) : M json :=
  match doc_get k d with
  | Some v => Ok v
  | None => Err (KeyError k)
  end.

(** ** The review store *)

(** BSON comparison order of the values of the model:
    null (also a missing field) < numbers < strings < booleans. *)
Definition bson_rank (v : json) : Z :=
  match v with
  | JNull => 0
  | JInt _ => 1
  | JStr _ => 2
  | JBool _ => 3
  end.

Definition bson_leb (a b : json) : bool :=
  match a, b with
  | JInt x, JInt y => x <=? y
  | JStr x, JStr y => String.leb x y
  | JBool x, JBool y => implb x y
  | _, _ => bson_rank a <=? bson_rank b
  end.

(** [.sort(key, -1)]: descending on [key]; documents with equal keys stay
    in the order the collection holds them (MongoDB leaves ties
    unspecified, the natural order is what a single server returns). *)
Fixpoint insert_desc (key : string) (d : doc) (l : list doc) : list doc :=
  match l with
  | [] => [d]
  | y :: l' =>
      if bson_leb (dict_get key y) (dict_get key d) then d :: y :: l'
      else y :: insert_desc key d l'
  end.

Definition sort_desc (key : string) (l : list doc) : list doc :=
  fold_right (insert_desc key) [] l.

(** The filter [{'produto_id': p}] on the scalar values of the model: the
    field is the string [p]. *)
Definition matches_produto (p : string) (d : doc) : bool :=
  match doc_get "produto_id" d with
  | Some (JStr s) => String.eqb s p
  | _ => false
  end.

(** [list(collection.find({'produto_id': p}, {'_id': 0}).sort('data', -1))] *)
Definition find_reviews (docs : list doc) (p : string) : list doc :=
  sort_desc "data" (map (doc_remove "_id") (filter (matches_produto p) docs)).

(** ** get_reviews *)

(** [reviews[:20]], then the text of each. *)
Definition filtrar_comentarios (reviews : list doc) : M (list json) :=
  mapM (doc_field "avaliacao") (firstn 20 reviews).

(** What [+] does inside [sum]: integers and booleans add, anything else
    raises [TypeError]. *)
Definition as_number (v : json) : M Z :=
  match v with
  | JInt n => Ok n
  | JBool b => Ok (if b then 1 else 0)
  | JNull | JStr _ => Err TypeError
  end.

Fixpoint py_sum (acc : Z) (l : list json) : M Z :=
  match l with
  | [] => Ok acc
  | v :: l' => n <- as_number v ;; py_sum (acc + n) l'
  end.

(** Lines 154-155. *)
Definition compute_media (reviews : list doc) : M media :=
  notas <- mapM (doc_field "nota") reviews ;;
  match notas with
  | [] => Ok MediaZero
  | _ => total <- py_sum 0 notas ;; Ok (MediaRound2 total (List.length notas))
  end.

Definition empty_answer : result :=
  Response (ReviewsBody "Nenhum resumo disponível." MediaZero []) 200.

Definition missing_id : result :=
  Response (ErrorBody "ID do produto é obrigatório") 400.

(** [not resumo_avaliacao] on what [cache.get] returned. *)
Definition usable (cached : option string) : option string :=
  match cached with
  | Some s => if String.eqb s EmptyString then None else Some s
  | None => None
  end.

Section Summarizer.

(** [gerar_resumo]: the answer of the external model to its [n]-th
    invocation (counted from 0) on the given comments; [None] when the
    call raises. *)
Variable gerar_resumo : nat -> list json -> option string.

(** [t_get] and [t_set] are the readings of the cache's clock at
    [cache.get] (line 157) and at [cache[produto_id] = ...] (line 161). *)
Definition get_reviews (w : World) (t_get t_set : Z)
           (produto_id : option string) : World * result :=
  match collection w with
  | None => (w, db_error)
  | Some docs =>
      match produto_id with
      | None | Some EmptyString => (w, missing_id)
      | Some p =>
          let reviews := find_reviews docs p in
          match reviews with
          | [] => (w, empty_answer)
          | _ :: _ =>
              match compute_media reviews with
              | Err e => (w, Raised e)
              | Ok media_nota =>
                  let (cached, c1) := TTLCache.get t_get p (cache w) in
                  let w1 := set_cache w c1 in
                  match usable cached with
                  | Some resumo =>
                      (w1, Response (ReviewsBody resumo media_nota reviews) 200)
                  | None =>
                      match filtrar_comentarios reviews with
                      | Err e => (w1, Raised e)
                      | Ok comentarios =>
                          let w2 := log_call w1 comentarios in
                          match gerar_resumo (List.length (calls w1)) comentarios with
                          | None => (w2, Raised SummarizerError)
                          | Some resumo =>
                              (set_cache w2 (TTLCache.set t_set p resumo (cache w2)),
                               Response (ReviewsBody resumo media_nota reviews) 200)
                          end
                      end
                  end
              end
          end
      end
  end.

End Summarizer.

(** ** search_reviews *)

(** [needle in hay] on strings. *)
Fixpoint contains (needle hay : string) : bool :=
  String.prefix needle hay ||
  match hay with
  | EmptyString => false
  | String _ hay' => contains needle hay'
  end.

Definition missing_search_args : result :=
  Response (ErrorBody "ID do produto e palavra de busca são obrigatórios") 400.

Definition absent (arg : option string) : bool :=
  match arg with
  | None => true
  | Some s => String.eqb s EmptyString
  end.

Section Search.

(** [str.lower]. *)
Variable lower : string -> string.

(** [palavra.lower() in review['avaliacao'].lower()]: [KeyError] without
    the field, [AttributeError] when it is not a string. *)
Definition review_matches (palavra : string) (review : doc) : M bool :=
  v <- doc_field "avaliacao" review ;;
  match v with
  | JStr texto => Ok (contains (lower palavra) (lower texto))
  | _ => Err AttributeError
  end.

Definition search_reviews (w : World) (produto_id palavra : option string)
  : World * result :=
  match collection w with
  | None => (w, db_error)
  | Some docs =>
      match produto_id, palavra with
      | Some p, Some word =>
          if absent produto_id || absent palavra then (w, missing_search_args)
          else
            let reviews := find_reviews docs p in
            match filterM (review_matches word) reviews with
            | Err e => (w, Raised e)
            | Ok filtered_reviews => (w, Response (SearchBody filtered_reviews) 200)
            end
      | _, _ => (w, missing_search_args)
      end
  end.

End Search.

(** ** Concurrent requests *)

(** A request in flight, cut where another request can run in between: the
    store query and the cache lookup (lines 137-158), the call of the
    external model (lines 159-160), the cache write (line 161). *)
Inductive thread : Type :=
| AtStart (produto_id : option string)
| AtSummarize (p : string) (reviews : list doc) (media_nota : media)
| AtStore (p : string) (reviews : list doc) (media_nota : media) (resumo : string)
| Done (r : result).

Section Threads.

Variable gerar_resumo : nat -> list json -> option string.

Definition thread_step (now : Z) (w : World) (th : thread) : World * thread :=
  match th with
  | AtStart produto_id =>
      match collection w with
      | None => (w, Done db_error)
      | Some docs =>
          match produto_id with
          | None | Some EmptyString => (w, Done missing_id)
          | Some p =>
              let reviews := find_reviews docs p in
              match reviews with
              | [] => (w, Done empty_answer)
              | _ :: _ =>
                  match compute_media reviews with
                  | Err e => (w, Done (Raised e))
                  | Ok media_nota =>
                      let (cached, c1) := TTLCache.get now p (cache w) in
                      let w1 := set_cache w c1 in
                      match usable cached with
                      | Some resumo =>
                          (w1, Done (Response (ReviewsBody resumo media_nota reviews) 200))
                      | None => (w1, AtSummarize p reviews media_nota)
                      end
                  end
              end
          end
      end
  | AtSummarize p reviews media_nota =>
      match filtrar_comentarios reviews with
      | Err e => (w, Done (Raised e))
      | Ok comentarios =>
          let w2 := log_call w comentarios in
          match gerar_resumo (List.length (calls w)) comentarios with
          | None => (w2, Done (Raised SummarizerError))
          | Some resumo => (w2, AtStore p reviews media_nota resumo)
          end
      end
  | AtStore p reviews media_nota resumo =>
      (set_cache w (TTLCache.set now p resumo (cache w)),
       Done (Response (ReviewsBody resumo media_nota reviews) 200))
  | Done r => (w, Done r)
  end.

(** The state of the server: the clock, the world and the requests. *)
Record system : Type := mkSystem {
  now : Z;
  world : World;
  threads : list thread
}.

Fixpoint update {A : Type} (i : nat) (a : A) (l : list A) : list A :=
  match l, i with
  | [], _ => []
  | _ :: l', O => a :: l'
  | x :: l', S i' => x :: update i' a l'
  end.

(** One scheduling decision [(i, dt)]: [dt] ticks pass, then request [i]
    runs its next piece. *)
Definition sys_step (s : system) (choice : nat * nat) : system :=
  let (i, dt) := choice in
  let now' := now s + Z.of_nat dt in
  match nth_error (threads s) i with
  | Some th =>
      let (w', th') := thread_step now' (world s) th in
      mkSystem now' w' (update i th' (threads s))
  | None => mkSystem now' (world s) (threads s)
  end.

Definition run (schedule : list (nat * nat)) (s : system) : system :=
  fold_left sys_step schedule s.

(** [n] simultaneous [get_reviews] requests for product [p]. *)
Definition start (t0 : Z) (w : World) (n : nat) (p : string) : system :=
  mkSystem t0 w (repeat (AtStart (Some p)) n).

Definition is_done (th : thread) : bool :=
  match th with
  | Done _ => true
  | _ => false
  end.

End Threads.

(** The summary a finished request returned. *)
Definition returned_summary (th : thread) : option string :=
  match th with
  | Done (Response (ReviewsBody resumo _ _) _) => Some resumo
  | _ => None
  end.

(** ** The routes *)

(** A request that reaches one of the three routes, with what its handler
    reads: the JSON body, the query arguments, the readings of the cache's
    clock. *)
Inductive request : Type :=
| SaveReview (data : doc)
| GetReviews (produto_id : option string) (t_get t_set : Z)
| SearchReviews (produto_id palavra : option string).

Section App.

Variable gerar_resumo : nat -> list json -> option string.
Variable lower : string -> string.

(** Lines 44, 105 and 170: the route picks the handler. *)
Definition handle (w : World) (req : request) : World * result :=
  match req with
  | SaveReview data => save_review w data
  | GetReviews produto_id t_get t_set =>
      get_reviews gerar_resumo w t_get t_set produto_id
  | SearchReviews produto_id palavra =>
      search_reviews lower w produto_id palavra
  end.

(** Requests served one after the other, with their answers. *)
Fixpoint serve (w : World) (reqs : list request) : World * list result :=
  match reqs with
  | [] => (w, [])
  | req :: reqs' =>
      let (w1, r) := handle w req in
      let (w2, rs) := serve w1 reqs' in
      (w2, r :: rs)
  end.

End App.

(** * Vocabulary of the properties *)

(** The average of an answer. *)
Definition answer_media (r : result) : option media :=
  match r with
  | Response (ReviewsBody _ m _) _ => Some m
  | _ => None
  end.

(** The arithmetic mean [total / count] rounded to two decimal places, in
    hundredths: to the nearest, a tie going to the even hundredth, or
    going up. *)
Definition mean_hundredths_half_even (total count : Z) : Z :=
  rne_div (100 * total) count.

Definition mean_hundredths_half_up (total count : Z) : Z :=
  (200 * total + count) / (2 * count).

(** The rating of a record as a number. *)
Definition rating_of (d : doc) : option Z :=
  match doc_get "nota" d with
  | Some (JInt n) => Some n
  | Some (JBool b) => Some (if b then 1 else 0)
  | _ => None
  end.

Definition has_truthy (k : string) (d : doc) : Prop :=
  exists v, doc_get k d = Some v /\ truthy v = true.

(** A record as [save_review] lets it through: product, user and text
    present and truthy, the rating a number from 1 to 5. *)
Definition valid_record (d : doc) : Prop :=
  has_truthy "produto_id" d /\
  has_truthy "nome_usuario" d /\
  (exists n, rating_of d = Some n /\ 1 <= n <= 5) /\
  has_truthy "avaliacao" d.

(** A cache with one entry per key and no more entries than its size. *)
Definition cache_wf (c : TTLCache.t) : Prop :=
  NoDup (map e_key c) /\ (List.length c <= TTLCache.maxsize)%nat.

(** A 201 answer: a record was created. *)
Definition created (r : result) : bool :=
  match r with
  | Response _ status => status =? 201
  | Raised _ => false
  end.

(** The answer is an exception other than the summarizer's. *)
Definition crashed (r : result) : Prop :=
  exists e, r = Raised e /\ e <> SummarizerError.

(** The summary of an answer. *)
Definition summary_of (r : result) : option string :=
  match r with
  | Response (ReviewsBody resumo _ _) _ => Some resumo
  | _ => None
  end.


(** The term occurs in the text when letter case is ignored: the lowered
    text is some prefix, the lowered term, some suffix. *)
Definition ci_contains (lower : string -> string) (term text : string) : Prop :=
  exists pre post : string,
    lower text = (pre ++ lower term ++ post)%string.

(** A review whose text contains the word, ignoring case. *)
Definition review_has (lower : string -> string) (word : string) (r : doc) : Prop :=
  exists texto, doc_get "avaliacao" r = Some (JStr texto) /\
                ci_contains lower word texto.

(** A query argument that [not arg] rejects: missing, or the empty string. *)
Definition missing_or_empty (arg : option string) : Prop :=
  arg = None \/ arg = Some EmptyString.

(** A record whose text is a string, as the body schema declares it. *)
Definition text_is_string (d : doc) : Prop :=
  exists texto, doc_get "avaliacao" d = Some (JStr texto).

(** [l'] is [l] restricted to the elements that satisfy [P], each as often
    as in [l] and in the order of [l]. *)
Inductive kept_in_order {A : Type} (P : A -> Prop) : list A -> list A -> Prop :=
| kept_nil : kept_in_order P [] []
| kept_take (x : A) (l l' : list A) :
    P x -> kept_in_order P l l' -> kept_in_order P (x :: l) (x :: l')
| kept_skip (x : A) (l l' : list A) :
    ~ P x -> kept_in_order P l l' -> kept_in_order P (x :: l) l'.

(** * Sample data *)

(** A connected, empty store and an empty cache. *)
Definition connected_empty : World := mkWorld (Some []) TTLCache.empty [].

(** A submission without the rating. *)
Definition no_nota : doc :=
  [("produto_id", JStr "P1"); ("nome_usuario", JStr "Ana");
   ("avaliacao", JStr "Muito bom")].

(** The two reviews of the scenario of the specification. *)
Definition loved_it : doc :=
  [("produto_id", JStr "P1"); ("nome_usuario", JStr "Ana");
   ("nota", JInt 5); ("avaliacao", JStr "Loved it")].

Definition it_was_okay : doc :=
  [("produto_id", JStr "P1"); ("nome_usuario", JStr "Bia");
   ("nota", JInt 3); ("avaliacao", JStr "It was okay")].

(** The world after both were submitted, in this order. *)
Definition two_saved : World :=
  fst (save_review (fst (save_review connected_empty loved_it)) it_was_okay).

(** [n] reviews of product P1, with texts A, B, C and so on. *)
Fixpoint lettered_reviews (n : nat) : list doc :=
  match n with
  | O => []
  | S n' =>
      lettered_reviews n' ++
      [[("produto_id", JStr "P1"); ("nome_usuario", JStr "Ana");
        ("nota", JInt 4);
        ("avaliacao", JStr (String (ascii_of_nat (65 + n')) EmptyString))]]
  end.

Definition twenty_five : World :=
  mkWorld (Some (lettered_reviews 25)) TTLCache.empty [].

(** Three reviews to search. *)
Definition great_product : doc :=
  [("produto_id", JStr "P1"); ("nome_usuario", JStr "Ana");
   ("nota", JInt 5); ("avaliacao", JStr "Great product!")].

Definition not_great : doc :=
  [("produto_id", JStr "P1"); ("nome_usuario", JStr "Bia");
   ("nota", JInt 2); ("avaliacao", JStr "not great")].

Definition awful : doc :=
  [("produto_id", JStr "P1"); ("nome_usuario", JStr "Caio");
   ("nota", JInt 1); ("avaliacao", JStr "Awful")].

Definition three_reviews : World :=
  mkWorld (Some [great_product; awful; not_great]) TTLCache.empty [].

(** Summarizers: one that always answers, one that fails first, one that
    answers the empty string first, one whose answers differ by call. *)
Definition always_fine (_ : nat) (_ : list json) : option string :=
  Some "Boa compra".

Definition failing_then_fine (n : nat) (_ : list json) : option string :=
  match n with
  | O => None
  | S _ => Some "Boa compra"
  end.

Definition empty_then_fine (n : nat) (_ : list json) : option string :=
  match n with
  | O => Some EmptyString
  | S _ => Some "Boa compra"
  end.

Definition numbered (n : nat) (_ : list json) : option string :=
  match n with
  | O => Some "Resumo A"
  | S _ => Some "Resumo B"
  end.

(** Two requests: both look the cache up, both call the summarizer, both
    write. *)
Definition both_miss : list (nat * nat) :=
  [(0, 0); (1, 0); (0, 1); (1, 1); (0, 1); (1, 0)]%nat.

(** Lower case on ASCII letters, as an instance of [str.lower]. *)
Definition ascii_lower (c : ascii) : ascii :=
  let n := nat_of_ascii c in
  if Nat.leb 65 n && Nat.leb n 90 then ascii_of_nat (n + 32) else c.

Fixpoint lower_ascii (s : string) : string :=
  match s with
  | EmptyString => EmptyString
  | String c s' => String (ascii_lower c) (lower_ascii s')
  end.

(** A submission whose product id is a number, and one whose text is. *)
Definition numeric_product : doc :=
  [("produto_id", JInt 7); ("nome_usuario", JStr "Ana");
   ("nota", JInt 4); ("avaliacao", JStr "Bom")].

Definition numeric_text : doc :=
  [("produto_id", JStr "P1"); ("nome_usuario", JStr "Ana");
   ("nota", JInt 4); ("avaliacao", JInt 5)].

(** One review stored, and its summary in the cache since tick 1. *)
Definition cached_summary : World :=
  fst (get_reviews always_fine (fst (save_review connected_empty loved_it))
                   0 1 (Some "P1")).

(** A run of requests: two that store, one that is rejected, two that read. *)
Definition a_morning : list request :=
  [SaveReview it_was_okay; GetReviews (Some "P1") 0 1; SaveReview no_nota;
   SearchReviews (Some "P1") (Some "okay"); SaveReview numeric_text].

(** The world when the connection failed at start-up. *)
Definition disconnected : World := mkWorld None TTLCache.empty [].

(** Reviews of two products, a summary of the first in the cache. *)
Definition two_products : World :=
  fst (get_reviews always_fine
         (fst (save_review two_saved
                 [("produto_id", JStr "P2"); ("nome_usuario", JStr "Caio");
                  ("nota", JInt 2); ("avaliacao", JStr "Fraco")]))
         0 1 (Some "P1")).

(** A review of product P1 with the given rating, and a store of 27
    reviews rated 3 and 13 rated 2: a mean of exactly 2.675. *)
Definition rated (n : Z) : doc :=
  [("produto_id", JStr "P1"); ("nome_usuario", JStr "Ana");
   ("nota", JInt n); ("avaliacao", JStr "ok")].

Definition forty_reviews : World :=
  mkWorld (Some (repeat (rated 3) 27 ++ repeat (rated 2) 13)) TTLCache.empty [].

(** ** Words for the search and the store query *)

Fixpoint ascii_only (s : string) : bool :=
  match s with
  | EmptyString => true
  | String c s' => Nat.ltb (nat_of_ascii c) 128 && ascii_only s'
  end.

(** Equal up to the case of the letters A to Z. *)
Definition same_ignoring_case (a b : string) : Prop :=
  lower_ascii a = lower_ascii b.

(** Some substring of the text is the word, up to the case of letters. *)
Definition occurs_ignoring_case (word texto : string) : Prop :=
  exists pre mid post : string,
    texto = (pre ++ mid ++ post)%string /\ same_ignoring_case mid word.

(** [a] may come before [b] in a sort descending on ['data']. *)
Definition by_data_desc (a b : doc) : Prop :=
  bson_leb (dict_get "data" b) (dict_get "data" a) = true.

Definition texts (l : list doc) : list json :=
  map (dict_get "avaliacao") l.

(** The bodies of [n] submissions for P1 with texts A, B, C and so on, each
    carrying a ['data'] field of its own, and the world after 25 of them
    were posted to a connected, empty store. *)
Fixpoint posted_reviews (n : nat) : list doc :=
  match n with
  | O => []
  | S n' =>
      posted_reviews n' ++
      [[("produto_id", JStr "P1"); ("nome_usuario", JStr "Ana");
        ("nota", JInt 4);
        ("avaliacao", JStr (String (ascii_of_nat (65 + n')) EmptyString));
        ("data", JInt (Z.of_nat n'))]]
  end.

Definition twenty_five_saved : World :=
  fst (serve always_fine lower_ascii connected_empty
             (map SaveReview (posted_reviews 25))).

(** * The invariant of concurrent requests *)

(** Requests that have got past the call of the summarizer, or ended. *)
Definition past_call (th : thread) : bool :=
  match th with
  | AtStore _ _ _ _ | Done _ => true
  | AtStart _ | AtSummarize _ _ _ => false
  end.

Definition count_past (l : list thread) : nat :=
  List.length (filter past_call l).

Section SingleFlightInvariant.

Variable g : nat -> list json -> option string.
Variable p : string.
Variable docs : list doc.
Variable t0 : Z.
Variable base : list (list json).

(** [resumo] is the answer of one of the invocations logged after
    [base]. *)
Definition answered (extra : list (list json)) (resumo : string) : Prop :=
  exists n cs,
    nth_error extra n = Some cs /\
    g (List.length base + n) cs = Some resumo.

Definition thread_ok (extra : list (list json)) (th : thread) : Prop :=
  match th with
  | AtStart produto_id => produto_id = Some p
  | AtSummarize p' _ _ => p' = p
  | AtStore p' _ _ resumo => p' = p /\ answered extra resumo
  | Done _ => forall resumo,
      returned_summary th = Some resumo -> answered extra resumo
  end.

(** What holds of the server all along a run of simultaneous requests for
    [p] that started at [t0] with no usable entry for [p]. *)
Record invariant (s : system) (extra : list (list json)) : Prop := {
  inv_clock : t0 <= now s;
  inv_store : collection (world s) = Some docs;
  inv_calls : calls (world s) = base ++ extra;
  inv_count : (List.length extra <= count_past (threads s))%nat;
  inv_cache : forall e,
      TTLCache.lookup p (cache (world s)) = Some e ->
      e_expires e <= t0 \/ e_value e = EmptyString \/ answered extra (e_value e);
  inv_threads : Forall (thread_ok extra) (threads s)
}.

End SingleFlightInvariant.

(** * Properties *)

(** ** Documents and the store *)

Lemma insert_desc_length (key : string) (d : doc) (l : list doc) :
  List.length (insert_desc key d l) = S (List.length l).
Proof.
  induction l as [|y l IH]; simpl; [reflexivity|].
  destruct (bson_leb _ _); simpl; [reflexivity|].
  now rewrite IH.
Qed.

Lemma sort_desc_length (key : string) (l : list doc) :
  List.length (sort_desc key l) = List.length l.
Proof.
  induction l as [|d l IH]; simpl; [reflexivity|].
  now rewrite insert_desc_length, IH.
Qed.

Lemma find_reviews_length (docs : list doc) (p : string) :
  List.length (find_reviews docs p)
  = List.length (filter (matches_produto p) docs).
Proof.
  unfold find_reviews. now rewrite sort_desc_length, length_map.
Qed.

Lemma find_reviews_none (docs : list doc) (p : string) :
  (forall d, In d docs -> matches_produto p d = false) ->
  find_reviews docs p = [].
Proof.
  intros H.
  apply length_zero_iff_nil. rewrite find_reviews_length.
  apply length_zero_iff_nil.
  induction docs as [|d docs IH]; simpl; [reflexivity|].
  rewrite (H d (or_introl eq_refl)). apply IH.
  intros d' Hd'. apply H. now right.
Qed.

(** ** save_review *)

(** Nothing is written unless the request is answered 201. *)
Lemma save_review_rejected_unchanged (w : World) (data : doc) :
  (forall b, snd (save_review w data) <> Response b 201) ->
  fst (save_review w data) = w.
Proof.
  unfold save_review. destruct (collection w); [|reflexivity].
  destruct (valid_review _ _ _ _) as [[|]|]; simpl; intros H;
    [exfalso; eapply H; reflexivity | reflexivity | reflexivity].
Qed.

(** A record that is persisted has the four fields truthy and the rating in
    range, and it is stored with exactly these four fields. *)
Lemma save_review_201 (w w' : World) (data : doc) (b : body) :
  save_review w data = (w', Response b 201) ->
  exists docs review,
    collection w = Some docs /\
    collection w' = Some (docs ++ [review]) /\
    review = [("produto_id", dict_get "produto_id" data);
              ("nome_usuario", dict_get "nome_usuario" data);
              ("nota", dict_get "nota" data);
              ("avaliacao", dict_get "avaliacao" data)] /\
    truthy (dict_get "produto_id" data) = true /\
    truthy (dict_get "nome_usuario" data) = true /\
    nota_in_range (dict_get "nota" data) = Some true /\
    truthy (dict_get "avaliacao" data) = true.
Proof.
  unfold save_review. destruct (collection w) as [docs|]; [|discriminate].
  unfold valid_review.
  destruct (truthy (dict_get "produto_id" data)); simpl; [|discriminate].
  destruct (truthy (dict_get "nome_usuario" data)); simpl; [|discriminate].
  destruct (nota_in_range (dict_get "nota" data)) as [[|]|]; [|discriminate|discriminate].
  destruct (truthy (dict_get "avaliacao" data)); [|discriminate].
  intros H. injection H as Hw _. subst w'.
  exists docs. eexists. repeat split; reflexivity.
Qed.

(** The record [save_review] builds has no ['data'] field. *)
Lemma saved_review_has_no_data (w w' : World) (data : doc) (b : body) :
  save_review w data = (w', Response b 201) ->
  exists docs review,
    collection w' = Some (docs ++ [review]) /\ doc_get "data" review = None.
Proof.
  intros H. destruct (save_review_201 _ _ _ _ H)
    as (docs & review & _ & Hc & Hr & _).
  exists docs, review. split; [exact Hc|]. subst review. reflexivity.
Qed.

(** C7: a submission without a rating (the other fields valid) is not
    answered with the 400 "Dados inválidos" error: [1 <= None] raises
    [TypeError], which leaves the handler.  Nothing is written. *)
Example save_review_missing_nota_raises :
  save_review connected_empty no_nota = (connected_empty, Raised TypeError).
Proof. reflexivity. Qed.

(** C8: the records [save_review] persists carry no timestamp (no ['data']
    field, which is what [get_reviews] sorts on), and [get_reviews] returns
    the older of two reviews first. *)
Example saved_reviews_carry_no_timestamp :
  collection two_saved = Some [loved_it; it_was_okay] /\
  doc_get "data" loved_it = None /\
  doc_get "data" it_was_okay = None /\
  snd (get_reviews (fun _ _ => Some "resumo") two_saved 0 0 (Some "P1"))
  = Response (ReviewsBody "resumo" (MediaRound2 8 2) [loved_it; it_was_okay]) 200.
Proof. repeat split. Qed.

(** ** The cache *)

Module CacheFacts.
Import TTLCache.

Lemma has_key_eq (k : string) (e : entry) :
  has_key k e = true <-> e_key e = k.
Proof.
  unfold has_key. rewrite String.eqb_eq. split; congruence.
Qed.

Lemma lookup_has_key (k : string) (c : t) (e : entry) :
  lookup k c = Some e -> e_key e = k.
Proof.
  intros H. apply find_some in H. now apply has_key_eq.
Qed.

Lemma lookup_app (k : string) (c1 c2 : t) :
  lookup k (c1 ++ c2)
  = match lookup k c1 with
    | Some e => Some e
    | None => lookup k c2
    end.
Proof.
  unfold lookup. induction c1 as [|e c1 IH]; simpl; [reflexivity|].
  destruct (has_key k e); [reflexivity|exact IH].
Qed.

Lemma lookup_remove_same (k : string) (c : t) :
  lookup k (remove k c) = None.
Proof.
  unfold lookup, remove. induction c as [|e c IH]; simpl; [reflexivity|].
  destruct (has_key k e) eqn:E; simpl; [exact IH|].
  now rewrite E.
Qed.

Lemma lookup_remove_other (k k' : string) (c : t) :
  k <> k' -> lookup k (remove k' c) = lookup k c.
Proof.
  intros Hne. unfold lookup, remove.
  induction c as [|e c IH]; simpl; [reflexivity|].
  destruct (has_key k' e) eqn:E'; simpl.
  - destruct (has_key k e) eqn:E; [|exact IH].
    apply has_key_eq in E, E'. congruence.
  - destruct (has_key k e); [reflexivity|exact IH].
Qed.

(** Reading the cache may reorder it, but every key keeps its entry. *)
Lemma lookup_get (t0 : Z) (k k' : string) (c : t) :
  lookup k (snd (get t0 k' c)) = lookup k c.
Proof.
  unfold get. destruct (lookup k' c) as [e|] eqn:E; [|reflexivity].
  destruct (live t0 e); [|reflexivity]. simpl.
  rewrite lookup_app.
  destruct (String.eqb_spec k k') as [->|Hne].
  - rewrite lookup_remove_same, E. unfold lookup. simpl.
    apply lookup_has_key in E. apply has_key_eq in E. now rewrite E.
  - rewrite (lookup_remove_other _ _ _ Hne).
    destruct (lookup k c) as [e'|]; [reflexivity|].
    unfold lookup. simpl. destruct (has_key k e) eqn:Ek; [|reflexivity].
    apply has_key_eq in Ek. apply lookup_has_key in E. congruence.
Qed.

Lemma get_value (t0 : Z) (k : string) (c : t) :
  fst (get t0 k c)
  = match lookup k c with
    | Some e => if live t0 e then Some (e_value e) else None
    | None => None
    end.
Proof.
  unfold get. destruct (lookup k c) as [e|]; [|reflexivity].
  now destruct (live t0 e).
Qed.

(** A miss leaves the cache as it is. *)
Lemma get_none (t0 : Z) (k : string) (c : t) :
  fst (get t0 k c) = None -> snd (get t0 k c) = c.
Proof.
  unfold get. destruct (lookup k c) as [e|]; [|reflexivity].
  destruct (live t0 e); [discriminate|reflexivity].
Qed.

(** After a write the key holds the value, stamped with the time of the
    write. *)
Lemma lookup_set (t0 : Z) (k v : string) (c : t) :
  lookup k (set t0 k v c) = Some (mkEntry k v (t0 + ttl)).
Proof.
  unfold set. rewrite lookup_app, lookup_remove_same.
  unfold lookup. simpl. unfold has_key. simpl.
  now rewrite String.eqb_refl.
Qed.

End CacheFacts.

(** ** get_reviews: the empty answer *)

(** C4, the claim as written fails: for a product without reviews the
    summary is not the string "no summary available". *)
Lemma empty_answer_is_not_english :
  get_reviews (fun _ _ => None) connected_empty 0 0 (Some "nonexistent")
  <> (connected_empty,
      Response (ReviewsBody "no summary available" MediaZero []) 200).
Proof. vm_compute. discriminate. Qed.

(** C4 (amended): for a non-empty product id with no stored review (the
    store being connected), [get_reviews] answers 200 with the summary
    "Nenhum resumo disponível.", the average 0 and no reviews; the world,
    hence the cache and the log of summarizer calls, is left as it was,
    whatever the cache holds. *)
Theorem get_reviews_no_reviews
        (g : nat -> list json -> option string) (w : World) (t_get t_set : Z)
        (p : string) (docs : list doc) :
  collection w = Some docs ->
  p <> EmptyString ->
  (forall d, In d docs -> matches_produto p d = false) ->
  get_reviews g w t_get t_set (Some p)
  = (w, Response (ReviewsBody "Nenhum resumo disponível." MediaZero []) 200).
Proof.
  intros Hc Hp Hnone. unfold get_reviews. rewrite Hc.
  destruct p as [|a s]; [contradiction|].
  now rewrite (find_reviews_none _ _ Hnone).
Qed.

Lemma get_reviews_no_reviews_witness :
  get_reviews (fun _ _ => Some "x") two_saved 0 0 (Some "P2")
  = (two_saved,
     Response (ReviewsBody "Nenhum resumo disponível." MediaZero []) 200).
Proof.
  apply (get_reviews_no_reviews _ two_saved 0 0 "P2" [loved_it; it_was_okay]).
  - reflexivity.
  - discriminate.
  - intros d [<-|[<-|[]]]; reflexivity.
Defined.

(** ** get_reviews: what the summarizer is given *)

Lemma doc_field_ok (k : string) (d : doc) (v : json) :
  doc_field k d = Ok v <-> doc_get k d = Some v.
Proof.
  unfold doc_field. destruct (doc_get k d); split; congruence.
Qed.

Lemma mapM_ok {A B : Type} (f : A -> M B) (l : list A) (bs : list B) :
  mapM f l = Ok bs -> Forall2 (fun a b => f a = Ok b) l bs.
Proof.
  revert bs. induction l as [|a l IH]; simpl; intros bs H.
  - injection H as <-. constructor.
  - destruct (f a) as [b|e] eqn:Ea; simpl in H; [|discriminate].
    destruct (mapM f l) as [bs'|e]; simpl in H; [|discriminate].
    injection H as <-. constructor; [exact Ea|]. now apply IH.
Qed.

(** The excerpt: the ['avaliacao'] field of each of the first 20 reviews,
    in their order. *)
Lemma filtrar_comentarios_ok (reviews : list doc) (comentarios : list json) :
  filtrar_comentarios reviews = Ok comentarios ->
  Forall2 (fun r c => doc_get "avaliacao" r = Some c)
          (firstn 20 reviews) comentarios /\
  (List.length comentarios <= 20)%nat.
Proof.
  unfold filtrar_comentarios. intros H. apply mapM_ok in H.
  split.
  - eapply Forall2_impl; [|exact H]. intros r c. apply doc_field_ok.
  - apply Forall2_length in H. rewrite <- H. apply firstn_le_length.
Qed.

(** ** get_reviews: the average *)

Lemma mapM_nota (reviews : list doc) (ns : list Z) :
  Forall2 (fun r n => doc_get "nota" r = Some (JInt n)) reviews ns ->
  mapM (doc_field "nota") reviews = Ok (map JInt ns).
Proof.
  induction 1 as [|r n reviews ns Hr _ IH]; simpl; [reflexivity|].
  unfold doc_field at 1. now rewrite Hr, IH.
Qed.

Lemma py_sum_ints (acc : Z) (ns : list Z) :
  py_sum acc (map JInt ns) = Ok (acc + fold_right Z.add 0 ns).
Proof.
  revert acc. induction ns as [|n ns IH]; intros acc; simpl.
  - now rewrite Z.add_0_r.
  - rewrite IH. now rewrite Z.add_assoc.
Qed.

(** The average of reviews with integer ratings is [round(total / count, 2)]
    with [total] the sum of the ratings and [count] their number. *)
Lemma compute_media_of_ratings (r : doc) (rs : list doc) (ns : list Z) :
  Forall2 (fun r n => doc_get "nota" r = Some (JInt n)) (r :: rs) ns ->
  compute_media (r :: rs)
  = Ok (MediaRound2 (fold_right Z.add 0 ns) (List.length (r :: rs))).
Proof.
  intros H. unfold compute_media. rewrite (mapM_nota _ _ H).
  pose proof (Forall2_length H) as Hlen.
  destruct ns as [|n ns]; [discriminate|].
  cbn [bind map]. change (JInt n :: map JInt ns) with (map JInt (n :: ns)).
  rewrite py_sum_ints. cbn [bind]. rewrite Z.add_0_l.
  now rewrite length_map, <- Hlen.
Qed.

(** Cases of [get_reviews] on a connected store with a product id. *)
Ltac get_reviews_cases :=
  unfold get_reviews;
  repeat match goal with
  | |- context [match collection ?w with _ => _ end] =>
      destruct (collection w) as [?docs|] eqn:?Hcol
  | |- context [match ?pid with Some _ => _ | None => _ end] =>
      is_var pid; destruct pid as [[|? ?]|]
  | |- context [match find_reviews ?d ?p with _ => _ end] =>
      destruct (find_reviews d p) as [|?r ?rs] eqn:?Hfind
  | |- context [match compute_media ?l with _ => _ end] =>
      destruct (compute_media l) as [?m|?e] eqn:?Hmedia
  | |- context [TTLCache.get ?t ?k ?c] =>
      destruct (TTLCache.get t k c) as [?cached ?c1] eqn:?Hget
  | |- context [match usable ?c with _ => _ end] =>
      destruct (usable c) as [?resumo|] eqn:?Husable
  | |- context [match filtrar_comentarios ?l with _ => _ end] =>
      destruct (filtrar_comentarios l) as [?comentarios|?e] eqn:?Hfiltrar
  | |- context [match ?g ?n ?cs with Some _ => _ | None => _ end] =>
      destruct (g n cs) as [?resumo|] eqn:?Hanswer
  end.

Lemma app_neq_self {A : Type} (l : list A) (a : A) : l ++ [a] <> l.
Proof.
  intros H. apply (f_equal (@List.length A)) in H.
  rewrite length_app in H. simpl in H. lia.
Qed.

(** C9: whenever [get_reviews] invokes the summarizer, it invokes it once,
    and what it passes is the text of the first 20 fetched reviews (of all
    of them when there are fewer), however many the product has. *)
Theorem summarizer_input_first_20
        (g : nat -> list json -> option string) (w : World) (t_get t_set : Z)
        (produto_id : option string) :
  calls (fst (get_reviews g w t_get t_set produto_id)) <> calls w ->
  exists docs p comentarios,
    collection w = Some docs /\
    produto_id = Some p /\
    calls (fst (get_reviews g w t_get t_set produto_id))
    = calls w ++ [comentarios] /\
    Forall2 (fun r c => doc_get "avaliacao" r = Some c)
            (firstn 20 (find_reviews docs p)) comentarios /\
    (List.length comentarios <= 20)%nat.
Proof.
  get_reviews_cases; simpl; intros H; try (exfalso; apply H; reflexivity).
  - exists docs, (String a s), comentarios.
    rewrite Hfind. apply filtrar_comentarios_ok in Hfiltrar.
    repeat split; tauto.
  - exists docs, (String a s), comentarios.
    rewrite Hfind. apply filtrar_comentarios_ok in Hfiltrar.
    repeat split; tauto.
Qed.

Lemma summarizer_input_first_20_witness :
  exists docs p comentarios,
    collection twenty_five = Some docs /\
    Some "P1" = Some p /\
    calls (fst (get_reviews (fun _ _ => Some "bom") twenty_five 0 1 (Some "P1")))
    = calls twenty_five ++ [comentarios] /\
    Forall2 (fun r c => doc_get "avaliacao" r = Some c)
            (firstn 20 (find_reviews docs p)) comentarios /\
    (List.length comentarios <= 20)%nat.
Proof.
  apply (summarizer_input_first_20 (fun _ _ => Some "bom") twenty_five 0 1 (Some "P1")).
  vm_compute. discriminate.
Defined.

(** ** get_reviews: hit and miss *)

Section GetReviews.

Variable g : nat -> list json -> option string.

(** The request found no usable summary and called the summarizer. *)
Lemma get_reviews_miss (w : World) (t_get t_set : Z) (p : string)
      (docs : list doc) (r : doc) (rs : list doc) (m : media)
      (cs : list json) :
  collection w = Some docs ->
  p <> EmptyString ->
  find_reviews docs p = r :: rs ->
  compute_media (r :: rs) = Ok m ->
  filtrar_comentarios (r :: rs) = Ok cs ->
  usable (fst (TTLCache.get t_get p (cache w))) = None ->
  get_reviews g w t_get t_set (Some p)
  = let w1 := set_cache w (snd (TTLCache.get t_get p (cache w))) in
    match g (List.length (calls w)) cs with
    | None => (log_call w1 cs, Raised SummarizerError)
    | Some resumo =>
        (set_cache (log_call w1 cs) (TTLCache.set t_set p resumo (cache w1)),
         Response (ReviewsBody resumo m (r :: rs)) 200)
    end.
Proof.
  intros Hc Hp Hf Hm Hcs Hu. unfold get_reviews. rewrite Hc.
  destruct p as [|a s]; [contradiction|].
  rewrite Hf, Hm. destruct (TTLCache.get _ _ _) as [cached c1].
  simpl in Hu |- *. now rewrite Hu, Hcs.
Qed.

(** The request found a usable summary in the cache. *)
Lemma get_reviews_hit (w : World) (t_get t_set : Z) (p : string)
      (docs : list doc) (r : doc) (rs : list doc) (m : media)
      (resumo : string) :
  collection w = Some docs ->
  p <> EmptyString ->
  find_reviews docs p = r :: rs ->
  compute_media (r :: rs) = Ok m ->
  usable (fst (TTLCache.get t_get p (cache w))) = Some resumo ->
  get_reviews g w t_get t_set (Some p)
  = (set_cache w (snd (TTLCache.get t_get p (cache w))),
     Response (ReviewsBody resumo m (r :: rs)) 200).
Proof.
  intros Hc Hp Hf Hm Hu. unfold get_reviews. rewrite Hc.
  destruct p as [|a s]; [contradiction|].
  rewrite Hf, Hm. destruct (TTLCache.get _ _ _) as [cached c1].
  simpl in Hu |- *. now rewrite Hu.
Qed.

(** A request that made the summarizer log grow got there through a miss. *)
Lemma get_reviews_invoked (w : World) (t_get t_set : Z)
      (produto_id : option string) (cs : list json) :
  calls (fst (get_reviews g w t_get t_set produto_id)) = calls w ++ [cs] ->
  exists docs p r rs m,
    produto_id = Some p /\ p <> EmptyString /\
    collection w = Some docs /\
    find_reviews docs p = r :: rs /\
    compute_media (r :: rs) = Ok m /\
    filtrar_comentarios (r :: rs) = Ok cs /\
    usable (fst (TTLCache.get t_get p (cache w))) = None.
Proof.
  get_reviews_cases; simpl; intros H;
    try (symmetry in H; now apply app_neq_self in H);
    apply app_inj_tail in H; destruct H as [_ ->];
    exists docs, (String a s), r, rs, m; rewrite ?Hfind, ?Hget;
    repeat split; try assumption; discriminate.
Qed.

(** A request that answered 200 with reviews, and a summary from the
    cache or from the summarizer. *)
Lemma get_reviews_ok (w w' : World) (t_get t_set : Z) (p : string)
      (docs : list doc) (r : doc) (rs : list doc)
      (resumo : string) (m : media) (revs : list doc) (st : Z) :
  collection w = Some docs ->
  find_reviews docs p = r :: rs ->
  get_reviews g w t_get t_set (Some p)
  = (w', Response (ReviewsBody resumo m revs) st) ->
  p <> EmptyString /\ compute_media (r :: rs) = Ok m /\ revs = r :: rs /\
  ((usable (fst (TTLCache.get t_get p (cache w))) = Some resumo /\
    w' = set_cache w (snd (TTLCache.get t_get p (cache w))))
   \/
   (exists cs,
      usable (fst (TTLCache.get t_get p (cache w))) = None /\
      filtrar_comentarios (r :: rs) = Ok cs /\
      g (List.length (calls w)) cs = Some resumo /\
      w' = set_cache (log_call (set_cache w (snd (TTLCache.get t_get p (cache w)))) cs)
                     (TTLCache.set t_set p resumo
                        (snd (TTLCache.get t_get p (cache w)))))).
Proof.
  intros Hc Hf. unfold get_reviews. rewrite Hc.
  destruct p as [|a s]; [discriminate|].
  rewrite Hf. destruct (compute_media (r :: rs)) as [m'|e]; [|discriminate].
  destruct (TTLCache.get _ _ _) as [cached c1]. simpl.
  destruct (usable cached) as [res|] eqn:Hu.
  - intros H. injection H as <- <- <- <- _.
    repeat split; try discriminate. left. now split.
  - destruct (filtrar_comentarios (r :: rs)) as [cs|e]; [|discriminate].
    destruct (g _ cs) as [res|] eqn:Hg; [|discriminate].
    intros H. injection H as <- <- <- <- _.
    repeat split; try discriminate. right. exists cs. now repeat split.
Qed.

End GetReviews.

Lemma find_reviews_some (docs : list doc) (p : string) :
  (exists d, In d docs /\ matches_produto p d = true) ->
  exists r rs, find_reviews docs p = r :: rs.
Proof.
  intros (d & Hin & Hd).
  destruct (find_reviews docs p) as [|r rs] eqn:E; [|now exists r, rs].
  apply (f_equal (@List.length doc)) in E.
  rewrite find_reviews_length in E. simpl in E.
  apply length_zero_iff_nil in E.
  assert (In d (filter (matches_produto p) docs)) as H
    by (apply filter_In; now split).
  rewrite E in H. destruct H.
Qed.

(** An entry that gave no usable summary at [t] gives none later either. *)
Lemma unusable_later (t t' : Z) (k : string) (c c' : TTLCache.t) :
  TTLCache.lookup k c' = TTLCache.lookup k c ->
  t <= t' ->
  usable (fst (TTLCache.get t k c)) = None ->
  usable (fst (TTLCache.get t' k c')) = None.
Proof.
  intros Hl Ht. rewrite !CacheFacts.get_value, Hl.
  destruct (TTLCache.lookup k c) as [e|]; [|reflexivity].
  unfold TTLCache.live.
  destruct (t' <? e_expires e) eqn:E'; [|reflexivity].
  destruct (t <? e_expires e) eqn:E; [trivial|].
  apply Z.ltb_lt in E'. apply Z.ltb_ge in E. lia.
Qed.

(** ** get_reviews: failures of the summarizer *)

(** C3: when [get_reviews] reaches the summarizer and the summarizer fails,
    the error leaves the handler, every key of the cache (this one
    included) keeps the entry it had, the store is untouched, and a later
    call for the same product invokes the summarizer again. *)
Theorem summarizer_failure_not_cached
        (g : nat -> list json -> option string) (w : World) (t_get t_set : Z)
        (produto_id : option string) (cs : list json) :
  calls (fst (get_reviews g w t_get t_set produto_id)) = calls w ++ [cs] ->
  g (List.length (calls w)) cs = None ->
  let w1 := fst (get_reviews g w t_get t_set produto_id) in
  snd (get_reviews g w t_get t_set produto_id) = Raised SummarizerError /\
  (forall k, TTLCache.lookup k (cache w1) = TTLCache.lookup k (cache w)) /\
  collection w1 = collection w /\
  forall t_get' t_set', t_get <= t_get' ->
    calls (fst (get_reviews g w1 t_get' t_set' produto_id)) = calls w1 ++ [cs].
Proof.
  intros Hcalls Hg.
  destruct (get_reviews_invoked _ _ _ _ _ _ Hcalls)
    as (docs & p & r & rs & m & -> & Hp & Hc & Hf & Hm & Hcs & Hu).
  rewrite (get_reviews_miss g w t_get t_set p docs r rs m cs Hc Hp Hf Hm Hcs Hu).
  cbv zeta. rewrite Hg. cbn [fst snd].
  split; [reflexivity|].
  split; [intros k; apply CacheFacts.lookup_get|].
  split; [reflexivity|].
  intros t_get' t_set' Ht.
  rewrite (get_reviews_miss g _ t_get' t_set' p docs r rs m cs); trivial.
  - cbv zeta.
    match goal with |- context [g ?n cs] => destruct (g n cs) end;
    reflexivity.
  - cbn [cache log_call set_cache].
    apply (unusable_later t_get t_get' p (cache w)); trivial.
    apply CacheFacts.lookup_get.
Qed.

Lemma summarizer_failure_not_cached_witness :
  let w1 := fst (get_reviews failing_then_fine two_saved 0 1 (Some "P1")) in
  snd (get_reviews failing_then_fine two_saved 0 1 (Some "P1"))
  = Raised SummarizerError /\
  (forall k, TTLCache.lookup k (cache w1) = TTLCache.lookup k (cache two_saved)) /\
  collection w1 = collection two_saved /\
  forall t_get' t_set', 0 <= t_get' ->
    calls (fst (get_reviews failing_then_fine w1 t_get' t_set' (Some "P1")))
    = calls w1 ++ [[JStr "Loved it"; JStr "It was okay"]].
Proof.
  apply (summarizer_failure_not_cached failing_then_fine two_saved 0 1
           (Some "P1") [JStr "Loved it"; JStr "It was okay"]);
    reflexivity.
Defined.

(** ** get_reviews: an empty summary *)

(** C10: when the summarizer answers the empty string, [get_reviews] writes
    it to the cache, where [cache.get] finds it while it is live, and every
    later call for the product invokes the summarizer again all the same. *)
Theorem empty_summary_cached_never_hit
        (g : nat -> list json -> option string) (w : World) (t_get t_set : Z)
        (produto_id : option string) (cs : list json) :
  calls (fst (get_reviews g w t_get t_set produto_id)) = calls w ++ [cs] ->
  g (List.length (calls w)) cs = Some EmptyString ->
  let w1 := fst (get_reviews g w t_get t_set produto_id) in
  exists p,
    produto_id = Some p /\
    TTLCache.lookup p (cache w1) = Some (mkEntry p EmptyString (t_set + TTLCache.ttl)) /\
    forall t_get' t_set',
      (t_get' < t_set + TTLCache.ttl ->
       fst (TTLCache.get t_get' p (cache w1)) = Some EmptyString) /\
      calls (fst (get_reviews g w1 t_get' t_set' produto_id)) = calls w1 ++ [cs].
Proof.
  intros Hcalls Hg.
  destruct (get_reviews_invoked _ _ _ _ _ _ Hcalls)
    as (docs & p & r & rs & m & -> & Hp & Hc & Hf & Hm & Hcs & Hu).
  rewrite (get_reviews_miss g w t_get t_set p docs r rs m cs Hc Hp Hf Hm Hcs Hu).
  cbv zeta. rewrite Hg. cbn [fst snd cache set_cache].
  exists p. split; [reflexivity|].
  split; [apply CacheFacts.lookup_set|].
  intros t_get' t_set'.
  assert (forall t, fst (TTLCache.get t p
                           (TTLCache.set t_set p EmptyString
                              (snd (TTLCache.get t_get p (cache w)))))
                    = if t <? t_set + TTLCache.ttl then Some EmptyString else None) as Hget.
  { intros t. now rewrite CacheFacts.get_value, CacheFacts.lookup_set. }
  split.
  - intros Hlive. rewrite Hget.
    apply Z.ltb_lt in Hlive. now rewrite Hlive.
  - rewrite (get_reviews_miss g _ t_get' t_set' p docs r rs m cs); trivial.
    + cbv zeta.
      match goal with |- context [g ?n cs] => destruct (g n cs) end;
      reflexivity.
    + cbn [cache set_cache]. rewrite Hget.
      now destruct (t_get' <? t_set + TTLCache.ttl).
Qed.

Lemma empty_summary_cached_never_hit_witness :
  let w1 := fst (get_reviews empty_then_fine two_saved 0 1 (Some "P1")) in
  exists p,
    Some "P1" = Some p /\
    TTLCache.lookup p (cache w1) = Some (mkEntry p EmptyString (1 + TTLCache.ttl)) /\
    forall t_get' t_set',
      (t_get' < 1 + TTLCache.ttl ->
       fst (TTLCache.get t_get' p (cache w1)) = Some EmptyString) /\
      calls (fst (get_reviews empty_then_fine w1 t_get' t_set' (Some "P1")))
      = calls w1 ++ [[JStr "Loved it"; JStr "It was okay"]].
Proof.
  apply (empty_summary_cached_never_hit empty_then_fine two_saved 0 1
           (Some "P1") [JStr "Loved it"; JStr "It was okay"]);
    reflexivity.
Defined.

(** ** get_reviews: two calls in a row *)




(** ** search_reviews *)

Lemma prefix_spec (n h : string) :
  String.prefix n h = true <-> exists post, h = (n ++ post)%string.
Proof.
  revert h. induction n as [|c n IH]; intros h.
  - split; [intros _; now exists h | intros _; now destruct h].
  - destruct h as [|c' h]; simpl.
    + split; [discriminate | intros [post H]; discriminate].
    + destruct (Ascii.ascii_dec c c') as [<-|Hne].
      * rewrite IH. split; intros [post H]; exists post; congruence.
      * split; [discriminate | intros [post H]; congruence].
Qed.

(** Python's [in] on strings finds the needle somewhere in the text. *)
Lemma contains_spec (n h : string) :
  contains n h = true <-> exists pre post, h = (pre ++ n ++ post)%string.
Proof.
  induction h as [|c h IH]; cbn [contains].
  - rewrite orb_false_r, prefix_spec. split.
    + intros [post H]. now exists EmptyString, post.
    + intros (pre & post & H). destruct pre; [|discriminate]. now exists post.
  - rewrite orb_true_iff, prefix_spec, IH. split.
    + intros [[post H]|(pre & post & H)].
      * now exists EmptyString, post.
      * exists (String c pre), post. simpl. now rewrite H.
    + intros (pre & post & H). destruct pre as [|c' pre]; simpl in H.
      * left. now exists post.
      * right. exists pre, post. congruence.
Qed.

Lemma insert_desc_in (key : string) (d x : doc) (l : list doc) :
  In x (insert_desc key d l) <-> x = d \/ In x l.
Proof.
  induction l as [|y l IH]; simpl.
  - intuition congruence.
  - destruct (bson_leb _ _); simpl; [intuition congruence|].
    rewrite IH. intuition congruence.
Qed.

Lemma sort_desc_in (key : string) (x : doc) (l : list doc) :
  In x (sort_desc key l) <-> In x l.
Proof.
  induction l as [|d l IH]; simpl; [reflexivity|].
  rewrite insert_desc_in, IH. intuition congruence.
Qed.

Lemma doc_get_remove (k k' : string) (d : doc) :
  k <> k' -> doc_get k (doc_remove k' d) = doc_get k d.
Proof.
  intros Hne. induction d as [|[k0 v] d IH]; simpl; [reflexivity|].
  destruct (String.eqb_spec k' k0) as [->|H0]; simpl.
  - destruct (String.eqb_spec k k0); [contradiction|exact IH].
  - destruct (String.eqb k k0); [reflexivity|exact IH].
Qed.

(** Every fetched review is a stored one of that product, without [_id]. *)
Lemma find_reviews_in (docs : list doc) (p : string) (r : doc) :
  In r (find_reviews docs p) <->
  exists d, In d docs /\ matches_produto p d = true /\ r = doc_remove "_id" d.
Proof.
  unfold find_reviews. rewrite sort_desc_in, in_map_iff. split.
  - intros (d & <- & Hd). apply filter_In in Hd. exists d. tauto.
  - intros (d & Hin & Hm & ->). exists d. rewrite filter_In. tauto.
Qed.

Lemma filterM_kept {A : Type} (P : A -> Prop) (f : A -> M bool) (l : list A) :
  Forall (fun a => exists b, f a = Ok b /\ (b = true <-> P a)) l ->
  exists l', filterM f l = Ok l' /\ kept_in_order P l l'.
Proof.
  induction 1 as [|a l (b & Hb & HP) _ (l' & Hl' & Hk)]; simpl.
  - exists []. split; [reflexivity|constructor].
  - rewrite Hb, Hl'. simpl. destruct b.
    + exists (a :: l'). split; [reflexivity|]. constructor; tauto.
    + exists l'. split; [reflexivity|]. apply kept_skip; [|exact Hk].
      intros Ha. apply HP in Ha. discriminate.
Qed.

Section SearchFacts.

Variable lower : string -> string.

Lemma review_matches_spec (word : string) (r : doc) :
  text_is_string r ->
  exists b, review_matches lower word r = Ok b /\
            (b = true <-> review_has lower word r).
Proof.
  intros [texto Ht]. unfold review_matches, doc_field. rewrite Ht. simpl.
  eexists. split; [reflexivity|].
  rewrite contains_spec. unfold review_has, ci_contains. rewrite Ht. split.
  - intros H. now exists texto.
  - intros (texto' & Heq & H). now injection Heq as <-.
Qed.

End SearchFacts.

Example search_great :
  search_reviews lower_ascii three_reviews (Some "P1") (Some "Great")
  = (three_reviews, Response (SearchBody [great_product; not_great]) 200).
Proof. reflexivity. Qed.

(** ** Concurrent get_reviews requests *)

(** A request running alone through its three pieces is [get_reviews]. *)
Lemma thread_alone (g : nat -> list json -> option string) (w : World)
      (t_get t_mid t_set : Z) (produto_id : option string) :
  let (w1, th1) := thread_step g t_get w (AtStart produto_id) in
  let (w2, th2) := thread_step g t_mid w1 th1 in
  thread_step g t_set w2 th2
  = (fst (get_reviews g w t_get t_set produto_id),
     Done (snd (get_reviews g w t_get t_set produto_id))).
Proof.
  unfold thread_step at 1.
  get_reviews_cases; cbn [thread_step fst snd]; try reflexivity;
    cbn [calls set_cache] in *; rewrite Hfiltrar; try rewrite Hanswer;
    reflexivity.
Qed.

(** C1, the claim as written fails: two requests for a product that has
    reviews and no cache entry, the second looking the cache up before the
    first has written to it.  The summarizer is invoked twice and the two
    requests return different summaries. *)
Lemma two_requests_two_invocations :
  let s := run numbered both_miss (start 0 two_saved 2 "P1") in
  forallb is_done (threads s) = true /\
  List.length (calls (world s)) = 2%nat /\
  map returned_summary (threads s) = [Some "Resumo A"; Some "Resumo B"] /\
  ~ (List.length (calls (world s)) = (List.length (calls two_saved) + 1)%nat /\
     exists v, forall th, In th (threads s) -> returned_summary th = Some v).
Proof.
  vm_compute. repeat split.
  intros [H _]. discriminate H.
Qed.

Lemma update_length {A : Type} (i : nat) (a : A) (l : list A) :
  List.length (update i a l) = List.length l.
Proof.
  revert i. induction l as [|x l IH]; intros [|i]; simpl; auto.
Qed.

Lemma update_Forall {A : Type} (P : A -> Prop) (i : nat) (a : A) (l : list A) :
  Forall P l -> P a -> Forall P (update i a l).
Proof.
  intros Hl Ha. revert i.
  induction Hl as [|x l Hx Hl IH]; intros [|i]; simpl; constructor; auto.
Qed.

Lemma update_In {A : Type} (i : nat) (a x : A) (l : list A) :
  In x (update i a l) -> x = a \/ In x l.
Proof.
  revert i. induction l as [|y l IH]; intros [|i]; simpl; try tauto.
  - intros [H|H]; auto.
  - intros [H|H]; auto. destruct (IH _ H); auto.
Qed.

Lemma count_past_le (l : list thread) :
  (count_past l <= List.length l)%nat.
Proof. apply filter_length_le. Qed.

(** Replacing a request by its next state never lowers the count, and
    raises it by one when the request moves past the call. *)
Lemma count_past_update (i : nat) (th th' : thread) (l : list thread) :
  nth_error l i = Some th ->
  (count_past (update i th' l) + (if past_call th then 1 else 0)
   = count_past l + (if past_call th' then 1 else 0))%nat.
Proof.
  unfold count_past. revert i.
  induction l as [|x l IH]; intros [|i]; simpl; try discriminate.
  - intros H. injection H as ->.
    destruct (past_call th), (past_call th'); simpl; lia.
  - intros H. specialize (IH _ H).
    destruct (past_call x); simpl; lia.
Qed.

Section SingleFlight.

Variable g : nat -> list json -> option string.
Variable p : string.
Variable docs : list doc.
Variable t0 : Z.
Variable base : list (list json).

Local Abbreviation answered := (answered g base).
Local Abbreviation thread_ok := (thread_ok g p base).
Local Abbreviation invariant := (invariant g p docs t0 base).

Lemma answered_more (extra : list (list json)) (cs : list json)
      (resumo : string) :
  answered extra resumo -> answered (extra ++ [cs]) resumo.
Proof.
  intros (n & cs' & Hn & Hg). exists n, cs'. split; [|exact Hg].
  rewrite nth_error_app1; [exact Hn|].
  apply nth_error_Some. congruence.
Qed.

Lemma thread_ok_more (extra : list (list json)) (cs : list json)
      (th : thread) :
  thread_ok extra th -> thread_ok (extra ++ [cs]) th.
Proof.
  destruct th; simpl; auto.
  - intros [H1 H2]. split; [exact H1|]. now apply answered_more.
  - intros H resumo Hr. apply answered_more. now apply H.
Qed.

Hypothesis has_reviews : exists d, In d docs /\ matches_produto p d = true.

Lemma invariant_start (w : World) (n : nat) :
  collection w = Some docs ->
  calls w = base ->
  usable (fst (TTLCache.get t0 p (cache w))) = None ->
  invariant (start t0 w n p) [].
Proof.
  intros Hc Hb Hu. constructor; simpl.
  - lia.
  - exact Hc.
  - now rewrite app_nil_r.
  - lia.
  - intros e He. rewrite CacheFacts.get_value, He in Hu.
    unfold TTLCache.live in Hu.
    destruct (t0 <? e_expires e) eqn:E.
    + right. left. simpl in Hu.
      destruct (String.eqb_spec (e_value e) EmptyString); [assumption|discriminate].
    + left. now apply Z.ltb_ge.
  - apply Forall_forall. intros th Hth. apply repeat_spec in Hth.
    now subst th.
Qed.

Lemma invariant_step (s : system) (extra : list (list json))
      (choice : nat * nat) :
  invariant s extra ->
  exists extra', invariant (sys_step g s choice) extra'.
Proof.
  intros [Hclock Hstore Hcalls Hcount Hcache Hthreads].
  destruct choice as [i dt]. unfold sys_step.
  destruct (nth_error (threads s) i) as [th|] eqn:Hth.
  2:{ exists extra. constructor; simpl; auto. lia. }
  assert (thread_ok extra th) as Hok.
  { rewrite Forall_forall in Hthreads. apply Hthreads.
    eapply nth_error_In; eassumption. }
  pose proof (count_past_update i th) as Hupd.
  assert (t0 <= now s + Z.of_nat dt) as Hclock' by lia.
  destruct th as [produto_id|p' reviews m|p' reviews m resumo|r].
  - (* the store query and the cache lookup *)
    simpl in Hok. subst produto_id.
    assert (forall r, (forall resumo,
              returned_summary (Done r) = Some resumo -> answered extra resumo) ->
            forall w', collection w' = Some docs -> calls w' = base ++ extra ->
              (forall e, TTLCache.lookup p (cache w') = Some e ->
                 e_expires e <= t0 \/ e_value e = EmptyString \/ answered extra (e_value e)) ->
            invariant (mkSystem (now s + Z.of_nat dt) w'
                                (update i (Done r) (threads s))) extra)
      as Hdone.
    { intros r Hr w' Hc' Hl' Hk'. constructor; simpl; auto.
      - specialize (Hupd (Done r) _ Hth). simpl in Hupd. lia.
      - apply update_Forall; [exact Hthreads|exact Hr]. }
    exists extra. unfold thread_step. rewrite Hstore.
    destruct (find_reviews_some _ _ has_reviews) as (r & rs & Hf).
    destruct p as [|a p0] eqn:Hp.
    { apply Hdone; auto. simpl. discriminate. }
    rewrite <- Hp in *. rewrite Hf.
    destruct (compute_media (r :: rs)) as [m|e].
    2:{ apply Hdone; auto. simpl. discriminate. }
    destruct (TTLCache.get (now s + Z.of_nat dt) p (cache (world s)))
      as [cached c1] eqn:Hget.
    assert (forall e, TTLCache.lookup p c1 = Some e ->
              e_expires e <= t0 \/ e_value e = EmptyString \/ answered extra (e_value e))
      as Hcache'.
    { intros e He. apply Hcache. rewrite <- He.
      replace c1 with (snd (TTLCache.get (now s + Z.of_nat dt) p (cache (world s))))
        by now rewrite Hget.
      symmetry. apply CacheFacts.lookup_get. }
    destruct (usable cached) as [resumo|] eqn:Hu.
    + apply Hdone; auto. simpl. intros resumo' Hr. injection Hr as <-.
      assert (usable (fst (TTLCache.get (now s + Z.of_nat dt) p
                                        (cache (world s)))) = Some resumo)
        as Hu' by now rewrite Hget.
      rewrite CacheFacts.get_value in Hu'.
      destruct (TTLCache.lookup p (cache (world s))) as [e|] eqn:He;
        [|discriminate].
      unfold TTLCache.live in Hu'.
      destruct (now s + Z.of_nat dt <? e_expires e) eqn:E; [|discriminate].
      apply Z.ltb_lt in E. simpl in Hu'.
      destruct (String.eqb_spec (e_value e) EmptyString) as [Hv|Hv]; [discriminate|].
      injection Hu' as <-.
      destruct (Hcache e eq_refl) as [H|[H|H]]; [lia|contradiction|exact H].
    + constructor; simpl; auto.
      * specialize (Hupd (AtSummarize p (r :: rs) m) _ Hth).
        simpl in Hupd. lia.
      * apply update_Forall; [exact Hthreads|reflexivity].
  - (* the call of the summarizer *)
    simpl in Hok. subst p'. unfold thread_step.
    destruct (filtrar_comentarios reviews) as [cs|e].
    2:{ exists extra. constructor; simpl; auto.
        - specialize (Hupd (Done (Raised e)) _ Hth). simpl in Hupd. lia.
        - apply update_Forall; [exact Hthreads|]. simpl. discriminate. }
    exists (extra ++ [cs]).
    assert (forall resumo,
              g (List.length (calls (world s))) cs = Some resumo ->
              answered (extra ++ [cs]) resumo) as Hans.
    { intros resumo Hg. exists (List.length extra), cs. split.
      - rewrite nth_error_app2, Nat.sub_diag; [reflexivity|lia].
      - rewrite <- Hg, Hcalls, length_app. reflexivity. }
    assert (forall th',
              past_call th' = true -> thread_ok (extra ++ [cs]) th' ->
              invariant (mkSystem (now s + Z.of_nat dt)
                                  (log_call (world s) cs)
                                  (update i th' (threads s)))
                        (extra ++ [cs])) as Hnext.
    { intros th' Hpast Hok'. constructor; simpl; auto.
      - now rewrite Hcalls, app_assoc.
      - specialize (Hupd th' _ Hth). simpl in Hupd. rewrite Hpast in Hupd.
        rewrite length_app. simpl. lia.
      - intros e He. destruct (Hcache e He) as [H|[H|H]]; auto.
        right. right. now apply answered_more.
      - apply update_Forall; [|exact Hok'].
        eapply Forall_impl; [|exact Hthreads].
        intros th0. apply thread_ok_more. }
    destruct (g (List.length (calls (world s))) cs) as [resumo|] eqn:Hg.
    + apply Hnext; [reflexivity|]. simpl. split; [reflexivity|].
      now apply Hans.
    + apply Hnext; [reflexivity|]. simpl. discriminate.
  - (* the cache write *)
    simpl in Hok. destruct Hok as [-> Hans]. exists extra.
    unfold thread_step. constructor; simpl; auto.
    + specialize (Hupd (Done (Response (ReviewsBody resumo m reviews) 200)) _ Hth).
      simpl in Hupd. lia.
    + intros e He. rewrite CacheFacts.lookup_set in He.
      injection He as <-. simpl. auto.
    + apply update_Forall; [exact Hthreads|]. simpl.
      intros resumo' Hr. now injection Hr as <-.
  - (* nothing left to run *)
    exists extra. unfold thread_step. constructor; simpl; auto.
    + specialize (Hupd (Done r) _ Hth). simpl in Hupd. lia.
    + apply update_Forall; [exact Hthreads|exact Hok].
Qed.

Lemma invariant_run (schedule : list (nat * nat)) (s : system)
      (extra : list (list json)) :
  invariant s extra ->
  exists extra', invariant (run g schedule s) extra'.
Proof.
  revert s extra. induction schedule as [|choice schedule IH];
    intros s extra Hinv; simpl.
  - now exists extra.
  - destruct (invariant_step s extra choice Hinv) as [extra' Hinv'].
    now apply (IH _ extra').
Qed.

Lemma run_threads_length (schedule : list (nat * nat)) (s : system) :
  List.length (threads (run g schedule s)) = List.length (threads s).
Proof.
  revert s. induction schedule as [|[i dt] schedule IH]; intros s;
    [reflexivity|].
  change (run g ((i, dt) :: schedule) s)
    with (run g schedule (sys_step g s (i, dt))).
  rewrite IH. unfold sys_step.
  destruct (nth_error (threads s) i); [|reflexivity].
  destruct (thread_step _ _ _ _). simpl. apply update_length.
Qed.

End SingleFlight.

(** C1 (amended): [n] simultaneous [get_reviews] requests for a product
    that has reviews and no usable cache entry, interleaved in any way,
    invoke the summarizer at most [n] times between them (nothing makes a
    request wait for another one's call), and every request that returns a
    summary returns the answer of one of these invocations. *)
Theorem concurrent_requests_invoke_up_to_n
        (g : nat -> list json -> option string) (w : World) (docs : list doc)
        (p : string) (t0 : Z) (n : nat) (schedule : list (nat * nat)) :
  collection w = Some docs ->
  (exists d, In d docs /\ matches_produto p d = true) ->
  usable (fst (TTLCache.get t0 p (cache w))) = None ->
  let s := run g schedule (start t0 w n p) in
  exists extra,
    calls (world s) = calls w ++ extra /\
    (List.length extra <= n)%nat /\
    forall th resumo,
      In th (threads s) -> returned_summary th = Some resumo ->
      exists k cs,
        nth_error extra k = Some cs /\
        g (List.length (calls w) + k)%nat cs = Some resumo.
Proof.
  intros Hc Hsome Hu s.
  destruct (invariant_run g p docs t0 (calls w) Hsome schedule
              (start t0 w n p) []
              (invariant_start g p docs t0 (calls w) w n Hc eq_refl Hu))
    as [extra Hinv].
  fold s in Hinv. destruct Hinv as [_ _ Hcalls Hcount _ Hthreads].
  exists extra. split; [exact Hcalls|]. split.
  - pose proof (count_past_le (threads s)) as Hle.
    unfold s in Hle at 2. rewrite run_threads_length in Hle.
    simpl in Hle. rewrite repeat_length in Hle. lia.
  - intros th resumo Hin Hret.
    rewrite Forall_forall in Hthreads. specialize (Hthreads th Hin).
    destruct th; try discriminate. exact (Hthreads resumo Hret).
Qed.

Lemma concurrent_requests_invoke_up_to_n_witness :
  let s := run numbered both_miss (start 0 two_saved 2 "P1") in
  exists extra,
    calls (world s) = calls two_saved ++ extra /\
    (List.length extra <= 2)%nat /\
    forall th resumo,
      In th (threads s) -> returned_summary th = Some resumo ->
      exists k cs,
        nth_error extra k = Some cs /\
        numbered (List.length (calls two_saved) + k)%nat cs = Some resumo.
Proof.
  apply (concurrent_requests_invoke_up_to_n numbered two_saved
           [loved_it; it_was_okay] "P1" 0 2 both_miss).
  - reflexivity.
  - exists loved_it. split; [left|]; reflexivity.
  - reflexivity.
Defined.

(** * Further properties of the handlers *)

(** ** save_review: what is accepted, rejected and stored *)

Lemma truthy_dict_get (k : string) (d : doc) :
  truthy (dict_get k d) = true -> has_truthy k d /\ doc_get k d = Some (dict_get k d).
Proof.
  unfold dict_get, has_truthy. destruct (doc_get k d) as [v|]; [|discriminate].
  intros H. split; [now exists v|reflexivity].
Qed.

Lemma nota_in_range_rating (v : json) :
  nota_in_range v = Some true ->
  exists n, (v = JInt n \/ (v = JBool true /\ n = 1)) /\ 1 <= n <= 5.
Proof.
  destruct v as [|b|n|s]; simpl; try discriminate.
  - destruct b; simpl; [|discriminate]. intros _. exists 1. split; [right; auto|lia].
  - intros H. injection H as H. apply andb_true_iff in H. destruct H as [H1 H2].
    apply Z.leb_le in H1, H2. exists n. split; [left; reflexivity|lia].
Qed.

(** A record that is persisted was validated: it is the body's four
    fields, all present, product, user and text truthy and the rating a
    number from 1 to 5; it is appended to the collection, whatever else the
    body held is dropped, and cache and summarizer log are left alone. *)
Theorem save_review_persists_validated (w w' : World) (data : doc) (b : body) :
  save_review w data = (w', Response b 201) ->
  exists docs review,
    collection w = Some docs /\
    collection w' = Some (docs ++ [review]) /\
    cache w' = cache w /\ calls w' = calls w /\
    map fst review = ["produto_id"; "nome_usuario"; "nota"; "avaliacao"] /\
    (forall k, In k ["produto_id"; "nome_usuario"; "nota"; "avaliacao"] ->
               doc_get k data = doc_get k review) /\
    valid_record review.
Proof.
  intros H. pose proof H as H0.
  destruct (save_review_201 _ _ _ _ H)
    as (docs & review & Hc & Hc' & Hr & Hp & Hu & Hn & Ha).
  exists docs, review. split; [exact Hc|]. split; [exact Hc'|].
  assert (cache w' = cache w /\ calls w' = calls w) as [Hk Hl].
  { unfold save_review in H0. rewrite Hc in H0.
    destruct (valid_review _ _ _ _) as [[|]|]; try discriminate.
    injection H0 as <- _. split; reflexivity. }
  split; [exact Hk|]. split; [exact Hl|].
  destruct (truthy_dict_get _ _ Hp) as [_ Hp'].
  destruct (truthy_dict_get _ _ Hu) as [_ Hu'].
  destruct (truthy_dict_get _ _ Ha) as [_ Ha'].
  assert (doc_get "nota" data = Some (dict_get "nota" data)) as Hn'.
  { unfold dict_get in *. destruct (doc_get "nota" data); [reflexivity|discriminate]. }
  subst review. split; [reflexivity|]. split.
  - intros k [<-|[<-|[<-|[<-|[]]]]]; assumption.
  - repeat split.
    + now exists (dict_get "produto_id" data).
    + now exists (dict_get "nome_usuario" data).
    + destruct (nota_in_range_rating _ Hn) as (n & [Hv|[Hv Hn1]] & Hrange);
        exists n; unfold rating_of; simpl; rewrite Hv; split; trivial.
      now rewrite Hn1.
    + now exists (dict_get "avaliacao" data).
Qed.

Lemma save_review_persists_validated_witness :
  exists docs review,
    collection connected_empty = Some docs /\
    collection (fst (save_review connected_empty loved_it)) = Some (docs ++ [review]) /\
    cache (fst (save_review connected_empty loved_it)) = cache connected_empty /\
    calls (fst (save_review connected_empty loved_it)) = calls connected_empty /\
    map fst review = ["produto_id"; "nome_usuario"; "nota"; "avaliacao"] /\
    (forall k, In k ["produto_id"; "nome_usuario"; "nota"; "avaliacao"] ->
               doc_get k loved_it = doc_get k review) /\
    valid_record review.
Proof.
  apply (save_review_persists_validated connected_empty
           (fst (save_review connected_empty loved_it)) loved_it
           (MessageBody "Avaliação salva com sucesso")).
  reflexivity.
Defined.

(** With product, user and text non-empty strings and an integer rating,
    on a connected store, the record is stored and answered 201 exactly
    when the rating is from 1 to 5, and answered 400 with nothing written
    otherwise. *)
Theorem save_review_integer_rating
        (w : World) (docs : list doc) (data : doc) (p u t : string) (n : Z) :
  collection w = Some docs ->
  dict_get "produto_id" data = JStr p -> p <> EmptyString ->
  dict_get "nome_usuario" data = JStr u -> u <> EmptyString ->
  dict_get "avaliacao" data = JStr t -> t <> EmptyString ->
  dict_get "nota" data = JInt n ->
  (1 <= n <= 5 ->
   save_review w data
   = (set_collection w (Some (docs ++ [[("produto_id", JStr p);
                                         ("nome_usuario", JStr u);
                                         ("nota", JInt n);
                                         ("avaliacao", JStr t)]])),
      Response (MessageBody "Avaliação salva com sucesso") 201)) /\
  (~ 1 <= n <= 5 ->
   save_review w data = (w, Response (ErrorBody "Dados inválidos") 400)).
Proof.
  intros Hc Hp Hp' Hu Hu' Ht Ht' Hn.
  unfold save_review, valid_review. rewrite Hc, Hp, Hu, Ht, Hn. simpl.
  destruct (String.eqb_spec p EmptyString); [contradiction|].
  destruct (String.eqb_spec u EmptyString); [contradiction|].
  destruct (String.eqb_spec t EmptyString); [contradiction|]. simpl.
  destruct ((1 <=? n) && (n <=? 5)) eqn:E.
  - apply andb_true_iff in E. destruct E as [E1 E2].
    apply Z.leb_le in E1, E2. split; [reflexivity|]. intros H. lia.
  - split; [|reflexivity]. intros [H1 H2].
    apply Z.leb_le in H1, H2. rewrite H1, H2 in E. discriminate.
Qed.

Lemma save_review_integer_rating_witness :
  (1 <= 5 <= 5 ->
   save_review connected_empty loved_it
   = (set_collection connected_empty
        (Some ([] ++ [[("produto_id", JStr "P1"); ("nome_usuario", JStr "Ana");
                       ("nota", JInt 5); ("avaliacao", JStr "Loved it")]])),
      Response (MessageBody "Avaliação salva com sucesso") 201)) /\
  (~ 1 <= 5 <= 5 ->
   save_review connected_empty loved_it
   = (connected_empty, Response (ErrorBody "Dados inválidos") 400)).
Proof.
  apply (save_review_integer_rating connected_empty [] loved_it
           "P1" "Ana" "Loved it" 5);
    try reflexivity; discriminate.
Defined.

(** ** get_reviews: what a call may change, and what it lists *)

Lemma get_snd_lookup (t : Z) (k k' : string) (c c1 : TTLCache.t)
      (cached : option string) :
  TTLCache.get t k' c = (cached, c1) ->
  TTLCache.lookup k c1 = TTLCache.lookup k c.
Proof.
  intros H. replace c1 with (snd (TTLCache.get t k' c)) by now rewrite H.
  apply CacheFacts.lookup_get.
Qed.

Lemma mapM_doc_field_err (k : string) (l : list doc) (e : exn) :
  mapM (doc_field k) l = Err e ->
  e = KeyError k /\ exists d, In d l /\ doc_get k d = None.
Proof.
  induction l as [|d l IH]; simpl; [discriminate|].
  unfold doc_field at 1. destruct (doc_get k d) as [v|] eqn:E; simpl.
  - destruct (mapM (doc_field k) l) as [bs|e']; simpl; [discriminate|].
    intros H. injection H as <-. destruct (IH eq_refl) as [He (d' & Hin & Hd')].
    split; [exact He|]. exists d'. auto.
  - intros H. injection H as <-. split; [reflexivity|]. exists d. auto.
Qed.

Lemma py_sum_err (acc : Z) (l : list json) (e : exn) :
  py_sum acc l = Err e -> e = TypeError.
Proof.
  revert acc. induction l as [|v l IH]; intros acc; simpl; [discriminate|].
  destruct v as [|b|n|s]; simpl; try (intros H; congruence); apply IH.
Qed.

Lemma compute_media_err (l : list doc) (e : exn) :
  compute_media l = Err e -> e = KeyError "nota" \/ e = TypeError.
Proof.
  unfold compute_media.
  destruct (mapM (doc_field "nota") l) as [notas|e'] eqn:E; simpl.
  - destruct notas as [|v notas]; [discriminate|].
    destruct (py_sum 0 (v :: notas)) as [total|e'] eqn:E'; simpl; [discriminate|].
    intros H. injection H as <-. right. eapply py_sum_err; eassumption.
  - intros H. injection H as <-. left.
    now destruct (mapM_doc_field_err _ _ _ E).
Qed.

Lemma filtrar_comentarios_err (l : list doc) (e : exn) :
  filtrar_comentarios l = Err e -> e = KeyError "avaliacao".
Proof.
  unfold filtrar_comentarios. intros H.
  now destruct (mapM_doc_field_err _ _ _ H).
Qed.

Lemma handler_error_not_summarizer (l : list doc) (e : exn) :
  compute_media l = Err e \/ filtrar_comentarios l = Err e ->
  Raised e <> Raised SummarizerError.
Proof.
  intros [H|H] Heq; injection Heq as ->.
  - destruct (compute_media_err _ _ H); discriminate.
  - apply filtrar_comentarios_err in H. discriminate.
Qed.

(** Whatever the request, [get_reviews] leaves the store as it is and
    invokes the summarizer at most once.  Without an invocation, or when
    the invocation fails, every key of the cache keeps its entry; the cache
    is written only after an answer of the summarizer, under the requested
    product, with the answer that is returned, to expire [ttl] after the
    write. *)
Theorem get_reviews_frame
        (g : nat -> list json -> option string) (w : World) (t_get t_set : Z)
        (produto_id : option string) :
  let w' := fst (get_reviews g w t_get t_set produto_id) in
  let r := snd (get_reviews g w t_get t_set produto_id) in
  collection w' = collection w /\
  ((calls w' = calls w /\ r <> Raised SummarizerError /\
    forall k, TTLCache.lookup k (cache w') = TTLCache.lookup k (cache w))
   \/
   (exists cs,
      calls w' = calls w ++ [cs] /\ g (List.length (calls w)) cs = None /\
      r = Raised SummarizerError /\
      forall k, TTLCache.lookup k (cache w') = TTLCache.lookup k (cache w))
   \/
   (exists cs resumo p,
      produto_id = Some p /\
      calls w' = calls w ++ [cs] /\
      g (List.length (calls w)) cs = Some resumo /\
      summary_of r = Some resumo /\
      TTLCache.lookup p (cache w')
      = Some (mkEntry p resumo (t_set + TTLCache.ttl)))).
Proof.
  cbv zeta.
  get_reviews_cases; cbn [fst snd collection cache calls set_cache log_call];
    (split; [first [reflexivity | assumption]|]);
    unfold missing_id, empty_answer, db_error;
    first
      [ solve [ left; repeat split; try discriminate;
                try (eapply handler_error_not_summarizer; eauto; fail);
                intros k; first [reflexivity
                                | eapply get_snd_lookup; eassumption] ]
      | solve [ right; left; eexists; repeat split; try eassumption;
                intros k; eapply get_snd_lookup; eassumption ]
      | solve [ right; right; do 3 eexists; repeat split; try eassumption;
                apply CacheFacts.lookup_set ] ].
Qed.

(** On a connected store, [get_reviews] answers 400 "ID do produto é
    obrigatório" exactly when the product id is missing or empty, and then
    changes nothing. *)
Theorem get_reviews_400_iff
        (g : nat -> list json -> option string) (w : World) (t_get t_set : Z)
        (produto_id : option string) (docs : list doc) :
  collection w = Some docs ->
  (snd (get_reviews g w t_get t_set produto_id)
   = Response (ErrorBody "ID do produto é obrigatório") 400
   <-> missing_or_empty produto_id) /\
  (missing_or_empty produto_id ->
   fst (get_reviews g w t_get t_set produto_id) = w).
Proof.
  intros Hc. unfold missing_or_empty. revert Hc.
  get_reviews_cases; cbn [fst snd]; intros Hc;
    (split; [split|]); try discriminate; try reflexivity;
    try (intros [H|H]; discriminate); auto.
Qed.

Lemma get_reviews_400_iff_witness :
  (snd (get_reviews always_fine two_saved 0 1 (Some EmptyString))
   = Response (ErrorBody "ID do produto é obrigatório") 400
   <-> missing_or_empty (Some EmptyString)) /\
  (missing_or_empty (Some EmptyString) ->
   fst (get_reviews always_fine two_saved 0 1 (Some EmptyString)) = two_saved).
Proof.
  apply (get_reviews_400_iff always_fine two_saved 0 1 (Some EmptyString)
           [loved_it; it_was_okay]).
  reflexivity.
Defined.

Lemma doc_get_remove_same (k : string) (d : doc) :
  doc_get k (doc_remove k d) = None.
Proof.
  induction d as [|[k0 v] d IH]; simpl; [reflexivity|].
  destruct (String.eqb k k0) eqn:E; simpl; [exact IH|]. now rewrite E.
Qed.

Lemma find_reviews_of_product (docs : list doc) (p : string) (r : doc) :
  In r (find_reviews docs p) ->
  matches_produto p r = true /\ doc_get "_id" r = None.
Proof.
  intros H. apply find_reviews_in in H. destruct H as (d & _ & Hm & ->).
  split; [|apply doc_get_remove_same].
  unfold matches_produto in *. rewrite doc_get_remove; [exact Hm|discriminate].
Qed.

(** An answer of [get_reviews] with reviews is a 200 that lists all the
    reviews the store holds for the requested product (not only the 20 the
    summarizer is given), nothing of another product, and no [_id]. *)
Theorem get_reviews_lists_product_reviews
        (g : nat -> list json -> option string) (w : World) (t_get t_set : Z)
        (produto_id : option string) (docs : list doc)
        (resumo : string) (m : media) (revs : list doc) (st : Z) :
  collection w = Some docs ->
  snd (get_reviews g w t_get t_set produto_id)
  = Response (ReviewsBody resumo m revs) st ->
  exists p,
    produto_id = Some p /\ st = 200 /\
    revs = find_reviews docs p /\
    List.length revs = List.length (filter (matches_produto p) docs) /\
    forall r, In r revs ->
              matches_produto p r = true /\ doc_get "_id" r = None.
Proof.
  intros Hc. revert Hc.
  get_reviews_cases; cbn [fst snd]; intros Hc H; try discriminate;
    injection Hc as <-; injection H as <- <- <- <-;
    exists (String a s); rewrite <- Hfind;
    (do 3 (split; [reflexivity|]));
    (split; [apply find_reviews_length
            | intros r0; apply find_reviews_of_product]).
Qed.

Lemma get_reviews_lists_product_reviews_witness :
  exists p,
    Some "P1" = Some p /\ 200 = 200 /\
    [loved_it; it_was_okay] = find_reviews [loved_it; it_was_okay] p /\
    List.length [loved_it; it_was_okay]
    = List.length (filter (matches_produto p) [loved_it; it_was_okay]) /\
    forall r, In r [loved_it; it_was_okay] ->
              matches_produto p r = true /\ doc_get "_id" r = None.
Proof.
  apply (get_reviews_lists_product_reviews always_fine two_saved 0 1
           (Some "P1") [loved_it; it_was_okay]
           "Boa compra" (MediaRound2 8 2) [loved_it; it_was_okay] 200);
    reflexivity.
Defined.

(** ** Validated stores *)

Lemma has_truthy_remove (k k' : string) (d : doc) :
  k <> k' -> has_truthy k d -> has_truthy k (doc_remove k' d).
Proof.
  intros Hne (v & Hv & Ht). exists v. now rewrite doc_get_remove.
Qed.

Lemma valid_record_remove_id (d : doc) :
  valid_record d -> valid_record (doc_remove "_id" d).
Proof.
  intros (Hp & Hu & (n & Hn & Hr) & Ha). repeat split.
  - apply has_truthy_remove; [discriminate|exact Hp].
  - apply has_truthy_remove; [discriminate|exact Hu].
  - exists n. split; [|exact Hr]. unfold rating_of in *.
    rewrite doc_get_remove; [exact Hn|discriminate].
  - apply has_truthy_remove; [discriminate|exact Ha].
Qed.

Lemma find_reviews_valid (docs : list doc) (p : string) :
  Forall valid_record docs -> Forall valid_record (find_reviews docs p).
Proof.
  intros H. apply Forall_forall. intros r Hr.
  apply find_reviews_in in Hr. destruct Hr as (d & Hin & _ & ->).
  apply valid_record_remove_id. rewrite Forall_forall in H. now apply H.
Qed.

Lemma mapM_nota_valid (l : list doc) :
  Forall valid_record l ->
  exists notas,
    mapM (doc_field "nota") l = Ok notas /\
    List.length notas = List.length l /\
    Forall (fun v => exists n, as_number v = Ok n /\ 1 <= n <= 5) notas.
Proof.
  induction 1 as [|d l (_ & _ & (n & Hn & Hr) & _) _ (notas & Hm & Hl & Hf)].
  - exists []. repeat split; constructor.
  - unfold rating_of in Hn. simpl. unfold doc_field at 1.
    destruct (doc_get "nota" d) as [v|]; [|discriminate].
    rewrite Hm. simpl. exists (v :: notas). repeat split.
    + simpl. now rewrite Hl.
    + constructor; [|exact Hf]. exists n. split; [|exact Hr].
      destruct v; try discriminate; simpl; congruence.
Qed.

Lemma py_sum_rated (acc : Z) (notas : list json) :
  Forall (fun v => exists n, as_number v = Ok n /\ 1 <= n <= 5) notas ->
  exists total,
    py_sum acc notas = Ok (acc + total) /\
    Z.of_nat (List.length notas) <= total <= 5 * Z.of_nat (List.length notas).
Proof.
  intros H. revert acc.
  induction H as [|v notas (n & Hn & Hr) _ IH]; intros acc.
  - exists 0. simpl. split; [now rewrite Z.add_0_r|lia].
  - cbn [py_sum]. rewrite Hn. cbn [bind].
    destruct (IH (acc + n)) as (total & Ht & Hb).
    exists (n + total). split; [now rewrite Ht, Z.add_assoc|].
    cbn [List.length]. rewrite Nat2Z.inj_succ. lia.
Qed.

(** On validated records the average is defined: [round(total / count, 2)]
    with [count] the number of records and [count <= total <= 5 * count]. *)
Lemma compute_media_valid (r : doc) (rs : list doc) :
  Forall valid_record (r :: rs) ->
  exists total,
    compute_media (r :: rs) = Ok (MediaRound2 total (List.length (r :: rs))) /\
    Z.of_nat (List.length (r :: rs)) <= total
    <= 5 * Z.of_nat (List.length (r :: rs)).
Proof.
  intros H. destruct (mapM_nota_valid _ H) as (notas & Hm & Hl & Hf).
  unfold compute_media. rewrite Hm. cbn [bind].
  destruct notas as [|v notas]; [discriminate|].
  destruct (py_sum_rated 0 _ Hf) as (total & Ht & Hb).
  rewrite Ht. cbn [bind]. exists total. rewrite Z.add_0_l, Hl.
  split; [reflexivity|]. now rewrite <- Hl.
Qed.

Lemma In_firstn {A : Type} (n : nat) (l : list A) (x : A) :
  In x (firstn n l) -> In x l.
Proof.
  intros H. rewrite <- (firstn_skipn n l). apply in_or_app. now left.
Qed.

Lemma filtrar_comentarios_valid (l : list doc) :
  Forall valid_record l -> exists cs, filtrar_comentarios l = Ok cs.
Proof.
  intros H. destruct (filtrar_comentarios l) as [cs|e] eqn:E; [now exists cs|].
  unfold filtrar_comentarios in E.
  destruct (mapM_doc_field_err _ _ _ E) as (_ & d & Hin & Hd).
  apply In_firstn in Hin. rewrite Forall_forall in H.
  destruct (H d Hin) as (_ & _ & _ & (v & Hv & _)). congruence.
Qed.

(** On a store of validated records [get_reviews] raises nothing but the
    summarizer's error, and the average of an answer is
    [round(total / count, 2)] with [count] the number of reviews listed and
    [total] between [count] and [5 * count]: a mean from 1 to 5. *)
Theorem get_reviews_on_valid_store
        (g : nat -> list json -> option string) (w : World) (t_get t_set : Z)
        (produto_id : option string) (docs : list doc) :
  collection w = Some docs ->
  Forall valid_record docs ->
  (forall e, snd (get_reviews g w t_get t_set produto_id) = Raised e ->
             e = SummarizerError) /\
  (forall resumo total count revs st,
     snd (get_reviews g w t_get t_set produto_id)
     = Response (ReviewsBody resumo (MediaRound2 total count) revs) st ->
     count = List.length revs /\
     Z.of_nat count <= total <= 5 * Z.of_nat count).
Proof.
  intros Hc Hv. unfold get_reviews. rewrite Hc.
  unfold missing_id, empty_answer.
  destruct produto_id as [[|a s]|]; cbn [snd];
    try (split; intros; discriminate).
  pose proof (find_reviews_valid docs (String a s) Hv) as Hvalid.
  destruct (find_reviews docs (String a s)) as [|r rs];
    [split; intros; discriminate|].
  destruct (compute_media_valid _ _ Hvalid) as (total0 & Hm0 & Hb0).
  destruct (filtrar_comentarios_valid _ Hvalid) as (cs0 & Hcs0).
  rewrite Hm0, Hcs0.
  destruct (TTLCache.get _ _ _) as [cached c1].
  assert (forall resumo0 resumo total count revs st,
            Response (ReviewsBody resumo0 (MediaRound2 total0 (List.length (r :: rs)))
                                  (r :: rs)) 200
            = Response (ReviewsBody resumo (MediaRound2 total count) revs) st ->
            count = List.length revs /\
            Z.of_nat count <= total <= 5 * Z.of_nat count) as Hans.
  { intros resumo0 resumo total count revs st H.
    injection H as _ <- <- <- _. split; [reflexivity|exact Hb0]. }
  destruct (usable cached) as [resumo0|]; cbn [snd].
  - split; [discriminate|]. apply Hans.
  - destruct (g _ cs0) as [resumo0|]; cbn [snd].
    + split; [discriminate|]. apply Hans.
    + split; [congruence|discriminate].
Qed.

(** Validity of the records of a concrete store. *)
Ltac valid_records :=
  repeat first [apply Forall_nil | apply Forall_cons];
  unfold valid_record, has_truthy, rating_of; simpl;
  repeat split;
  try (eexists; split; [reflexivity | first [reflexivity | lia]]).

Lemma get_reviews_on_valid_store_witness :
  (forall e, snd (get_reviews always_fine two_saved 0 1 (Some "P1")) = Raised e ->
             e = SummarizerError) /\
  (forall resumo total count revs st,
     snd (get_reviews always_fine two_saved 0 1 (Some "P1"))
     = Response (ReviewsBody resumo (MediaRound2 total count) revs) st ->
     count = List.length revs /\
     Z.of_nat count <= total <= 5 * Z.of_nat count).
Proof.
  apply (get_reviews_on_valid_store always_fine two_saved 0 1 (Some "P1")
           [loved_it; it_was_okay]).
  - reflexivity.
  - valid_records.
Defined.

(** ** save_review, then the queries *)

Lemma find_reviews_app_other (docs : list doc) (review : doc) (q : string) :
  matches_produto q review = false ->
  find_reviews (docs ++ [review]) q = find_reviews docs q.
Proof.
  intros H. unfold find_reviews. rewrite filter_app. simpl. rewrite H.
  now rewrite app_nil_r.
Qed.

Lemma find_reviews_app_same (docs : list doc) (review : doc) (p : string) :
  matches_produto p review = true ->
  In (doc_remove "_id" review) (find_reviews (docs ++ [review]) p) /\
  List.length (find_reviews (docs ++ [review]) p)
  = S (List.length (find_reviews docs p)).
Proof.
  intros H. split.
  - apply find_reviews_in. exists review. repeat split; [|exact H].
    apply in_or_app. right. now left.
  - rewrite !find_reviews_length, filter_app, length_app. simpl. rewrite H.
    simpl. lia.
Qed.

(** The reviews an answer of [get_reviews] lists are the fetched ones. *)
Lemma get_reviews_revs
      (g : nat -> list json -> option string) (w : World) (t_get t_set : Z)
      (p : string) (docs : list doc)
      (resumo : string) (m : media) (revs : list doc) (st : Z) :
  collection w = Some docs ->
  snd (get_reviews g w t_get t_set (Some p))
  = Response (ReviewsBody resumo m revs) st ->
  revs = find_reviews docs p.
Proof.
  intros Hc. unfold get_reviews. rewrite Hc.
  destruct p as [|a s]; [discriminate|].
  destruct (find_reviews docs (String a s)) as [|r rs].
  { intros H. now injection H as _ _ <- _. }
  destruct (compute_media (r :: rs)) as [m'|e]; [|discriminate].
  destruct (TTLCache.get _ _ _) as [cached c1].
  destruct (usable cached) as [res|].
  { intros H. now injection H as _ _ <- _. }
  destruct (filtrar_comentarios (r :: rs)) as [cs|e]; [|discriminate].
  destruct (g _ cs) as [res|]; [|discriminate].
  intros H. now injection H as _ _ <- _.
Qed.

(** A review stored under a product id [p] that is a string is fetched
    from then on for [p]: the product has one review more, every answer of
    [get_reviews] for [p] lists the record, and what is fetched for any
    other product is what it was. *)
Theorem saved_review_is_listed (w w' : World) (data : doc) (b : body)
        (p : string) :
  save_review w data = (w', Response b 201) ->
  dict_get "produto_id" data = JStr p ->
  exists docs docs' review,
    collection w = Some docs /\ collection w' = Some docs' /\
    (forall k, In k ["produto_id"; "nome_usuario"; "nota"; "avaliacao"] ->
               doc_get k review = doc_get k data) /\
    In review (find_reviews docs' p) /\
    List.length (find_reviews docs' p) = S (List.length (find_reviews docs p)) /\
    (forall q, q <> p -> find_reviews docs' q = find_reviews docs q) /\
    (forall g t_get t_set resumo m revs st,
       snd (get_reviews g w' t_get t_set (Some p))
       = Response (ReviewsBody resumo m revs) st ->
       In review revs).
Proof.
  intros H Hp.
  destruct (save_review_201 _ _ _ _ H)
    as (docs & review & Hc & Hc' & Hr & Htp & Htu & Hn & Hta).
  rewrite Hp in Hr.
  assert (matches_produto p review = true) as Hmatch
    by (subst review; unfold matches_produto; simpl; apply String.eqb_refl).
  assert (doc_remove "_id" review = review) as Hid by (subst review; reflexivity).
  destruct (find_reviews_app_same docs review p Hmatch) as [Hin Hlen].
  rewrite Hid in Hin.
  exists docs, (docs ++ [review]), review.
  split; [exact Hc|]. split; [exact Hc'|]. split.
  { destruct (truthy_dict_get _ _ Htp) as [_ Hp'].
    destruct (truthy_dict_get _ _ Htu) as [_ Hu'].
    destruct (truthy_dict_get _ _ Hta) as [_ Ha'].
    assert (doc_get "nota" data = Some (dict_get "nota" data)) as Hn'.
    { unfold dict_get in *.
      destruct (doc_get "nota" data); [reflexivity|discriminate]. }
    rewrite Hp in Hp'. subst review.
    intros k [<-|[<-|[<-|[<-|[]]]]]; simpl; congruence. }
  split; [exact Hin|]. split; [exact Hlen|]. split.
  - intros q Hq. apply find_reviews_app_other.
    subst review. unfold matches_produto. simpl.
    destruct (String.eqb_spec p q); congruence.
  - intros g t_get t_set resumo m revs st Hans.
    rewrite (get_reviews_revs g w' t_get t_set p _ resumo m revs st Hc' Hans).
    exact Hin.
Qed.

Lemma saved_review_is_listed_witness :
  exists docs docs' review,
    collection (fst (save_review connected_empty loved_it)) = Some docs /\
    collection two_saved = Some docs' /\
    (forall k, In k ["produto_id"; "nome_usuario"; "nota"; "avaliacao"] ->
               doc_get k review = doc_get k it_was_okay) /\
    In review (find_reviews docs' "P1") /\
    List.length (find_reviews docs' "P1")
    = S (List.length (find_reviews docs "P1")) /\
    (forall q, q <> "P1" -> find_reviews docs' q = find_reviews docs q) /\
    (forall g t_get t_set resumo m revs st,
       snd (get_reviews g two_saved t_get t_set (Some "P1"))
       = Response (ReviewsBody resumo m revs) st ->
       In review revs).
Proof.
  apply (saved_review_is_listed (fst (save_review connected_empty loved_it))
           two_saved it_was_okay (MessageBody "Avaliação salva com sucesso") "P1");
    reflexivity.
Defined.

Lemma save_review_stores_valid (w w' : World) (data : doc) (b : body) :
  save_review w data = (w', Response b 201) ->
  exists docs review,
    collection w = Some docs /\
    w' = set_collection w (Some (docs ++ [review])) /\
    valid_record review /\
    doc_remove "_id" review = review /\
    doc_get "produto_id" review = Some (dict_get "produto_id" data) /\
    doc_get "avaliacao" review = Some (dict_get "avaliacao" data).
Proof.
  intros H. pose proof H as H0.
  destruct (save_review_201 _ _ _ _ H)
    as (docs & review & Hc & Hc' & Hr & Hp & Hu & Hn & Ha).
  exists docs, review. split; [exact Hc|].
  split.
  { unfold save_review in H0. rewrite Hc in H0.
    destruct (valid_review _ _ _ _) as [[|]|]; try discriminate.
    injection H0 as <- _. now subst review. }
  subst review. repeat split.
  - now exists (dict_get "produto_id" data).
  - now exists (dict_get "nome_usuario" data).
  - destruct (nota_in_range_rating _ Hn) as (n & [Hv|[Hv Hn1]] & Hrange);
      exists n; unfold rating_of; simpl; rewrite Hv; split; trivial.
    now rewrite Hn1.
  - now exists (dict_get "avaliacao" data).
Qed.

(** Storing a review does not touch the cache: a summary that was usable
    at [t_get] is still what [get_reviews] answers for the product after a
    new review of it was stored, without a call of the summarizer, beside
    a list of reviews that has grown by one. *)
Theorem insertion_keeps_cached_summary
        (g : nat -> list json -> option string) (w w' : World) (data : doc)
        (b : body) (p : string) (docs : list doc) (t_get t_set : Z)
        (resumo : string) :
  collection w = Some docs ->
  Forall valid_record docs ->
  save_review w data = (w', Response b 201) ->
  dict_get "produto_id" data = JStr p ->
  usable (fst (TTLCache.get t_get p (cache w))) = Some resumo ->
  exists m revs,
    get_reviews g w' t_get t_set (Some p)
    = (set_cache w' (snd (TTLCache.get t_get p (cache w))),
       Response (ReviewsBody resumo m revs) 200) /\
    List.length revs = S (List.length (find_reviews docs p)).
Proof.
  intros Hc Hv Hs Hp Hu.
  destruct (save_review_stores_valid _ _ _ _ Hs)
    as (docs0 & review & Hc0 & -> & Hvr & Hid & Hpr & _).
  rewrite Hc in Hc0. injection Hc0 as <-.
  assert (matches_produto p review = true) as Hmatch.
  { unfold matches_produto. rewrite Hpr, Hp. apply String.eqb_refl. }
  destruct (find_reviews_app_same docs review p Hmatch) as [_ Hlen].
  assert (Forall valid_record (find_reviews (docs ++ [review]) p)) as Hvalid.
  { apply find_reviews_valid. apply Forall_app. split; [exact Hv|].
    now constructor. }
  destruct (find_reviews (docs ++ [review]) p) as [|r rs] eqn:Hf;
    [discriminate|].
  destruct (compute_media_valid _ _ Hvalid) as (total & Hm & _).
  assert (p <> EmptyString) as Hne.
  { destruct Hvr as ((v & Hv1 & Hv2) & _). rewrite Hpr, Hp in Hv1.
    injection Hv1 as <-. simpl in Hv2.
    destruct (String.eqb_spec p EmptyString); [discriminate|assumption]. }
  exists (MediaRound2 total (List.length (r :: rs))), (r :: rs).
  split; [|exact Hlen].
  exact (get_reviews_hit g (set_collection w (Some (docs ++ [review])))
           t_get t_set p (docs ++ [review]) r rs _ resumo
           eq_refl Hne Hf Hm Hu).
Qed.

Lemma insertion_keeps_cached_summary_witness :
  exists m revs,
    get_reviews failing_then_fine
                (fst (save_review cached_summary it_was_okay)) 2 3 (Some "P1")
    = (set_cache (fst (save_review cached_summary it_was_okay))
                 (snd (TTLCache.get 2 "P1" (cache cached_summary))),
       Response (ReviewsBody "Boa compra" m revs) 200) /\
    List.length revs = S (List.length (find_reviews [loved_it] "P1")).
Proof.
  apply (insertion_keeps_cached_summary failing_then_fine cached_summary
           (fst (save_review cached_summary it_was_okay)) it_was_okay
           (MessageBody "Avaliação salva com sucesso") "P1" [loved_it] 2 3
           "Boa compra").
  - reflexivity.
  - valid_records.
  - reflexivity.
  - reflexivity.
  - reflexivity.
Defined.

(** ** search_reviews on records whose text is not a string *)

Lemma filterM_err {A : Type} (f : A -> M bool) (e0 : exn) (l : list A) :
  (forall a, In a l -> (exists b, f a = Ok b) \/ f a = Err e0) ->
  (exists a, In a l /\ f a = Err e0) ->
  filterM f l = Err e0.
Proof.
  induction l as [|a l IH]; intros Hall (x & Hin & Hx); [destruct Hin|].
  simpl. destruct (Hall a (or_introl eq_refl)) as [[b Hb]|Ha].
  - rewrite Hb. simpl. destruct Hin as [->|Hin]; [congruence|].
    rewrite IH; [reflexivity| |now exists x].
    intros a' Ha'. apply Hall. now right.
  - now rewrite Ha.
Qed.

(** [save_review] accepts a text that is not a string (a number, [true]);
    from then on, on a store of validated records, every search of that
    product with a word raises [AttributeError]. *)
Theorem search_raises_on_non_string_text
        (lower : string -> string) (w w' : World) (data : doc) (b : body)
        (docs : list doc) (p word : string) :
  collection w = Some docs ->
  Forall valid_record docs ->
  save_review w data = (w', Response b 201) ->
  dict_get "produto_id" data = JStr p ->
  (forall t, dict_get "avaliacao" data <> JStr t) ->
  word <> EmptyString ->
  search_reviews lower w' (Some p) (Some word) = (w', Raised AttributeError).
Proof.
  intros Hc Hv Hs Hp Ht Hword.
  destruct (save_review_stores_valid _ _ _ _ Hs)
    as (docs0 & review & Hc0 & -> & Hvr & Hid & Hpr & Har).
  rewrite Hc in Hc0. injection Hc0 as <-.
  assert (p <> EmptyString) as Hne.
  { destruct Hvr as ((v & Hv1 & Hv2) & _). rewrite Hpr, Hp in Hv1.
    injection Hv1 as <-. simpl in Hv2.
    destruct (String.eqb_spec p EmptyString); [discriminate|assumption]. }
  assert (matches_produto p review = true) as Hmatch.
  { unfold matches_produto. rewrite Hpr, Hp. apply String.eqb_refl. }
  unfold search_reviews. cbn [collection set_collection absent].
  destruct (String.eqb_spec p EmptyString); [contradiction|].
  destruct (String.eqb_spec word EmptyString); [contradiction|]. cbn [orb].
  rewrite (filterM_err (review_matches lower word) AttributeError).
  - reflexivity.
  - intros r Hr.
    assert (valid_record r) as (_ & _ & _ & (v & Hv1 & _)).
    { assert (Forall valid_record (find_reviews (docs ++ [review]) p)) as Hall.
      { apply find_reviews_valid. apply Forall_app. split; [exact Hv|].
        now constructor. }
      rewrite Forall_forall in Hall. now apply Hall. }
    unfold review_matches, doc_field. rewrite Hv1. simpl.
    destruct v; auto. left. eexists. reflexivity.
  - exists review. split.
    + destruct (find_reviews_app_same docs review p Hmatch) as [Hin _].
      now rewrite Hid in Hin.
    + unfold review_matches, doc_field. rewrite Har. simpl.
      destruct (dict_get "avaliacao" data) as [|x|z|t]; try reflexivity.
      now elim (Ht t).
Qed.

Lemma search_raises_on_non_string_text_witness :
  search_reviews lower_ascii (fst (save_review two_saved numeric_text))
                 (Some "P1") (Some "great")
  = (fst (save_review two_saved numeric_text), Raised AttributeError).
Proof.
  apply (search_raises_on_non_string_text lower_ascii two_saved
           (fst (save_review two_saved numeric_text)) numeric_text
           (MessageBody "Avaliação salva com sucesso")
           [loved_it; it_was_okay] "P1" "great").
  - reflexivity.
  - valid_records.
  - reflexivity.
  - reflexivity.
  - intros t. discriminate.
  - discriminate.
Defined.

(** ** filtrar_comentarios *)

Lemma mapM_doc_field_missing (k : string) (l : list doc) :
  (exists d, In d l /\ doc_get k d = None) ->
  mapM (doc_field k) l = Err (KeyError k).
Proof.
  induction l as [|d l IH]; intros (x & Hin & Hx); [destruct Hin|].
  simpl. unfold doc_field at 1.
  destruct (doc_get k d) as [v|] eqn:E; [|reflexivity]. simpl.
  destruct Hin as [->|Hin]; [congruence|].
  rewrite IH; [reflexivity|now exists x].
Qed.

(** [filtrar_comentarios] raises exactly when one of the first 20 reviews
    has no ['avaliacao'] field, and then it is [KeyError] on that key;
    reviews past the 20th are never looked at.  Otherwise it returns one
    text per review, 20 at most. *)
Theorem filtrar_comentarios_fails_iff (reviews : list doc) :
  (forall e,
     filtrar_comentarios reviews = Err e <->
     e = KeyError "avaliacao" /\
     exists r, In r (firstn 20 reviews) /\ doc_get "avaliacao" r = None) /\
  (forall cs,
     filtrar_comentarios reviews = Ok cs ->
     List.length cs = Nat.min 20 (List.length reviews)).
Proof.
  unfold filtrar_comentarios. split.
  - intros e. split.
    + apply mapM_doc_field_err.
    + intros [-> H]. now apply mapM_doc_field_missing.
  - intros cs H. apply mapM_ok in H. apply Forall2_length in H.
    now rewrite <- H, length_firstn.
Qed.

(** ** Runs of requests *)

Lemma get_reviews_collection
      (g : nat -> list json -> option string) (w : World) (t_get t_set : Z)
      (produto_id : option string) :
  collection (fst (get_reviews g w t_get t_set produto_id)) = collection w.
Proof.
  get_reviews_cases; cbn [fst collection set_cache log_call];
    first [reflexivity | assumption].
Qed.

Lemma get_reviews_not_created
      (g : nat -> list json -> option string) (w : World) (t_get t_set : Z)
      (produto_id : option string) :
  created (snd (get_reviews g w t_get t_set produto_id)) = false.
Proof.
  get_reviews_cases; reflexivity.
Qed.

Lemma search_reviews_same_world (lower : string -> string) (w : World)
      (produto_id palavra : option string) :
  fst (search_reviews lower w produto_id palavra) = w /\
  created (snd (search_reviews lower w produto_id palavra)) = false.
Proof.
  unfold search_reviews. destruct (collection w); [|now split].
  destruct produto_id as [p|], palavra as [word|]; try now split.
  destruct (absent (Some p) || absent (Some word)); [now split|].
  destruct (filterM _ _); now split.
Qed.

(** One request on a connected store of validated records: either nothing
    is stored and the answer is not a 201, or the answer is a 201 and one
    validated record was appended. *)
Lemma handle_store (g : nat -> list json -> option string)
      (lower : string -> string) (w : World) (req : request) (docs : list doc) :
  collection w = Some docs ->
  (created (snd (handle g lower w req)) = false /\
   collection (fst (handle g lower w req)) = Some docs)
  \/
  (created (snd (handle g lower w req)) = true /\
   exists review,
     collection (fst (handle g lower w req)) = Some (docs ++ [review]) /\
     valid_record review).
Proof.
  intros Hc. destruct req as [data|pid t_get t_set|pid palavra]; cbn [handle].
  - destruct (save_review w data) as [w' r] eqn:E.
    destruct r as [b st|e]; cbn [fst snd].
    + destruct (Z.eq_dec st 201) as [->|Hst].
      * right. destruct (save_review_stores_valid _ _ _ _ E)
          as (docs0 & review & Hc0 & -> & Hvr & _).
        rewrite Hc in Hc0. injection Hc0 as <-.
        split; [reflexivity|]. now exists review.
      * left. split; [unfold created; now apply Z.eqb_neq|].
        rewrite <- Hc. f_equal.
        change w' with (fst (w', Response b st)). rewrite <- E.
        apply save_review_rejected_unchanged. rewrite E. simpl. congruence.
    + left. split; [reflexivity|]. rewrite <- Hc. f_equal.
      change w' with (fst (w', Raised e)). rewrite <- E.
      apply save_review_rejected_unchanged. rewrite E. simpl. discriminate.
  - left. split; [apply get_reviews_not_created|].
    now rewrite get_reviews_collection.
  - left. destruct (search_reviews_same_world lower w pid palavra) as [-> Hr].
    now split.
Qed.

(** Whatever requests are served, in whatever order, a connected store that
    held validated records only keeps them all, in place, followed by one
    validated record per 201 answer: nothing is removed or rewritten, and
    no rating outside 1 to 5 ever gets in. *)
Theorem serve_keeps_store_valid
        (g : nat -> list json -> option string) (lower : string -> string)
        (reqs : list request) (w : World) (docs : list doc) :
  collection w = Some docs ->
  Forall valid_record docs ->
  exists more,
    collection (fst (serve g lower w reqs)) = Some (docs ++ more) /\
    Forall valid_record (docs ++ more) /\
    List.length more
    = List.length (filter created (snd (serve g lower w reqs))).
Proof.
  revert w docs. induction reqs as [|req reqs IH]; intros w docs Hc Hv.
  - exists []. rewrite app_nil_r. now repeat split.
  - cbn [serve]. pose proof (handle_store g lower w req docs Hc) as Hstep.
    destruct (handle g lower w req) as [w1 r]. cbn [fst snd] in Hstep.
    destruct Hstep as [[Hr Hc1]|[Hr (review & Hc1 & Hvr)]].
    + destruct (IH w1 docs Hc1 Hv) as (more & Hm1 & Hm2 & Hm3).
      destruct (serve g lower w1 reqs) as [w2 rs]. cbn [fst snd] in *.
      exists more. cbn [filter]. rewrite Hr. now repeat split.
    + assert (Forall valid_record (docs ++ [review])) as Hv1.
      { apply Forall_app. split; [exact Hv|now constructor]. }
      destruct (IH w1 _ Hc1 Hv1) as (more & Hm1 & Hm2 & Hm3).
      destruct (serve g lower w1 reqs) as [w2 rs]. cbn [fst snd] in *.
      exists (review :: more). cbn [filter]. rewrite Hr.
      rewrite <- app_assoc in Hm1, Hm2. simpl in Hm1, Hm2.
      repeat split; trivial. simpl. now rewrite Hm3.
Qed.

Lemma serve_keeps_store_valid_witness :
  exists more,
    collection (fst (serve always_fine lower_ascii
                           (fst (save_review connected_empty loved_it)) a_morning))
    = Some ([loved_it] ++ more) /\
    Forall valid_record ([loved_it] ++ more) /\
    List.length more
    = List.length (filter created
                     (snd (serve always_fine lower_ascii
                                 (fst (save_review connected_empty loved_it))
                                 a_morning))).
Proof.
  apply (serve_keeps_store_valid always_fine lower_ascii a_morning
           (fst (save_review connected_empty loved_it)) [loved_it]).
  - reflexivity.
  - valid_records.
Defined.

(** When the connection to the database failed at start-up, every request
    is answered 500 "Erro de conexão com o banco de dados", whatever its
    arguments, and nothing ever changes: not the cache, not the log of
    summarizer calls. *)
Theorem serve_disconnected
        (g : nat -> list json -> option string) (lower : string -> string)
        (reqs : list request) (w : World) :
  collection w = None ->
  serve g lower w reqs
  = (w, map (fun _ => Response (ErrorBody "Erro de conexão com o banco de dados") 500)
            reqs).
Proof.
  intros Hc. induction reqs as [|req reqs IH]; [reflexivity|].
  cbn [serve map].
  assert (handle g lower w req = (w, db_error)) as ->.
  { destruct req; cbn [handle];
      unfold save_review, get_reviews, search_reviews; now rewrite Hc. }
  now rewrite IH.
Qed.

Lemma serve_disconnected_witness :
  serve always_fine lower_ascii disconnected a_morning
  = (disconnected,
     map (fun _ => Response (ErrorBody "Erro de conexão com o banco de dados") 500)
         a_morning).
Proof.
  apply (serve_disconnected always_fine lower_ascii a_morning disconnected).
  reflexivity.
Defined.

(** ** The cache along a run *)

Module CacheInvariant.
Import TTLCache.

Lemma remove_not_in (k : string) (c : t) :
  ~ In k (map e_key (remove k c)).
Proof.
  unfold remove. intros H. apply in_map_iff in H.
  destruct H as (e & He & Hin). apply filter_In in Hin.
  destruct Hin as [_ Hk]. apply negb_true_iff in Hk.
  apply CacheFacts.has_key_eq in He. congruence.
Qed.

Lemma remove_absent (k : string) (c : t) :
  ~ In k (map e_key c) -> remove k c = c.
Proof.
  unfold remove. induction c as [|e c IH]; simpl; [reflexivity|].
  intros H. destruct (has_key k e) eqn:E.
  - apply CacheFacts.has_key_eq in E. elim H. now left.
  - simpl. f_equal. apply IH. intros Hin. apply H. now right.
Qed.

Lemma lookup_none_absent (k : string) (c : t) :
  lookup k c = None -> ~ In k (map e_key c).
Proof.
  intros H Hin. apply in_map_iff in Hin. destruct Hin as (e & He & Hin).
  apply (find_none _ _ H) in Hin. apply CacheFacts.has_key_eq in He. congruence.
Qed.

Lemma NoDup_keys_filter (P : entry -> bool) (c : t) :
  NoDup (map e_key c) -> NoDup (map e_key (filter P c)).
Proof.
  induction c as [|e c IH]; simpl; [trivial|].
  intros H. inversion H as [|? ? Hnotin Hnodup]; subst.
  destruct (P e); simpl; [|now apply IH].
  constructor; [|now apply IH].
  intros Hin. apply Hnotin. apply in_map_iff in Hin.
  destruct Hin as (e' & He' & Hin'). apply filter_In in Hin'.
  apply in_map_iff. exists e'. tauto.
Qed.

Lemma NoDup_keys_skipn (n : nat) (c : t) :
  NoDup (map e_key c) -> NoDup (map e_key (skipn n c)).
Proof.
  intros H. rewrite <- (firstn_skipn n c), map_app in H.
  now apply NoDup_app_remove_l in H.
Qed.

Lemma NoDup_keys_snoc (c : t) (e : entry) :
  NoDup (map e_key c) -> ~ In (e_key e) (map e_key c) ->
  NoDup (map e_key (c ++ [e])).
Proof.
  intros H Hn. rewrite map_app. simpl.
  apply NoDup_rev in H. rewrite <- (rev_involutive (map e_key c ++ [e_key e])).
  apply NoDup_rev. rewrite rev_app_distr. simpl. constructor; [|exact H].
  intros Hin. apply in_rev in Hin. contradiction.
Qed.

Lemma remove_present_length (k : string) (c : t) (e : entry) :
  NoDup (map e_key c) -> lookup k c = Some e ->
  S (List.length (remove k c)) = List.length c.
Proof.
  unfold lookup, remove. induction c as [|e0 c IH]; simpl; [discriminate|].
  intros H. inversion H as [|? ? Hnotin Hnodup]; subst.
  destruct (has_key k e0) eqn:E; simpl.
  - intros _. f_equal. apply CacheFacts.has_key_eq in E. subst k.
    now rewrite (remove_absent _ _ Hnotin : filter _ c = c).
  - intros Hl. f_equal. now apply IH.
Qed.

Lemma get_wf (t0 : Z) (k : string) (c : t) :
  cache_wf c -> cache_wf (snd (get t0 k c)).
Proof.
  intros [Hn Hl]. unfold get.
  destruct (lookup k c) as [e|] eqn:E; [|now split].
  destruct (live t0 e); [|now split]. simpl. split.
  - apply NoDup_keys_snoc; [now apply NoDup_keys_filter|].
    rewrite (CacheFacts.lookup_has_key _ _ _ E). apply remove_not_in.
  - rewrite length_app. simpl.
    rewrite <- (remove_present_length k c e Hn E) in Hl. lia.
Qed.

Lemma set_wf (t0 : Z) (k v : string) (c : t) :
  cache_wf c -> cache_wf (set t0 k v c).
Proof.
  intros [Hn Hl]. unfold set.
  assert (NoDup (map e_key (expire t0 c))) as Hn1
    by now apply NoDup_keys_filter.
  assert (List.length (expire t0 c) <= maxsize)%nat as Hl1.
  { pose proof (filter_length_le (live t0) c). unfold expire. lia. }
  destruct (lookup k (expire t0 c)) as [e|] eqn:E; split.
  - apply NoDup_keys_snoc; [now apply NoDup_keys_filter|apply remove_not_in].
  - rewrite length_app. simpl.
    rewrite <- (remove_present_length k _ e Hn1 E) in Hl1. lia.
  - apply NoDup_keys_snoc; [|apply remove_not_in].
    apply NoDup_keys_filter. now apply NoDup_keys_skipn.
  - rewrite length_app. cbn [List.length].
    pose proof (filter_length_le (fun e => negb (has_key k e))
                  (skipn (S (List.length (expire t0 c)) - maxsize) (expire t0 c)))
      as Hf.
    unfold remove. rewrite length_skipn in Hf. unfold maxsize in *. lia.
Qed.

Lemma get_entries (t0 : Z) (k : string) (c : t) (e : entry) :
  In e (snd (get t0 k c)) -> In e c.
Proof.
  unfold get. destruct (lookup k c) as [e0|] eqn:E; [|trivial].
  destruct (live t0 e0); [|trivial]. simpl. intros H.
  apply in_app_or in H. destruct H as [H|[<-|[]]].
  - apply filter_In in H. tauto.
  - apply find_some in E. tauto.
Qed.

Lemma set_entries (t0 : Z) (k v : string) (c : t) (e : entry) :
  In e (set t0 k v c) -> In e c \/ e = mkEntry k v (t0 + ttl).
Proof.
  unfold set. intros H. apply in_app_or in H.
  destruct H as [H|[<-|[]]]; [left|now right].
  apply filter_In in H. destruct H as [H _].
  assert (In e (expire t0 c)) as H'.
  { destruct (lookup k (expire t0 c)); [exact H|].
    rewrite <- (firstn_skipn (S (List.length (expire t0 c)) - maxsize)
                              (expire t0 c)).
    apply in_or_app. now right. }
  apply filter_In in H'. tauto.
Qed.

Lemma lookup_unique (c : t) (e : entry) :
  NoDup (map e_key c) -> In e c -> lookup (e_key e) c = Some e.
Proof.
  unfold lookup. induction c as [|e0 c IH]; simpl; [tauto|].
  intros H Hin. inversion H as [|? ? Hnotin Hnodup]; subst.
  destruct Hin as [->|Hin].
  - unfold has_key. now rewrite String.eqb_refl.
  - destruct (has_key (e_key e) e0) eqn:E; [|now apply IH].
    apply CacheFacts.has_key_eq in E. elim Hnotin. rewrite E.
    now apply in_map.
Qed.

End CacheInvariant.

Lemma get_reviews_cache_wf
      (g : nat -> list json -> option string) (w : World) (t_get t_set : Z)
      (produto_id : option string) :
  cache_wf (cache w) ->
  cache_wf (cache (fst (get_reviews g w t_get t_set produto_id))).
Proof.
  intros Hwf.
  get_reviews_cases; cbn [fst cache set_cache log_call]; trivial;
    try apply CacheInvariant.set_wf;
    replace c1 with (snd (TTLCache.get t_get (String a s) (cache w)))
      by (now rewrite Hget);
    now apply CacheInvariant.get_wf.
Qed.

(** Whatever requests are served, the cache keeps one entry per key and at
    most 100 entries. *)
Theorem serve_keeps_cache_bounded
        (g : nat -> list json -> option string) (lower : string -> string)
        (reqs : list request) (w : World) :
  cache_wf (cache w) ->
  NoDup (map e_key (cache (fst (serve g lower w reqs)))) /\
  (List.length (cache (fst (serve g lower w reqs))) <= 100)%nat.
Proof.
  revert w. induction reqs as [|req reqs IH]; intros w Hwf; [exact Hwf|].
  cbn [serve].
  assert (cache_wf (cache (fst (handle g lower w req)))) as Hstep.
  { destruct req as [data|pid t_get t_set|pid palavra]; cbn [handle].
    - unfold save_review. destruct (collection w); [|exact Hwf].
      now destruct (valid_review _ _ _ _) as [[|]|].
    - now apply get_reviews_cache_wf.
    - now destruct (search_reviews_same_world lower w pid palavra) as [-> _]. }
  destruct (handle g lower w req) as [w1 r]. cbn [fst] in Hstep.
  specialize (IH w1 Hstep).
  now destruct (serve g lower w1 reqs) as [w2 rs].
Qed.

Lemma serve_keeps_cache_bounded_witness :
  NoDup (map e_key (cache (fst (serve always_fine lower_ascii
                                      connected_empty a_morning)))) /\
  (List.length (cache (fst (serve always_fine lower_ascii
                                  connected_empty a_morning))) <= 100)%nat.
Proof.
  apply (serve_keeps_cache_bounded always_fine lower_ascii a_morning
           connected_empty).
  split; [constructor | simpl; lia].
Defined.

(** [get_reviews] for one product never creates or alters the cache entry
    of another: an entry found under another key after the call was there,
    the same, before it (the call can only drop such entries, expired or
    evicted). *)
Theorem get_reviews_other_keys
        (g : nat -> list json -> option string) (w : World) (t_get t_set : Z)
        (produto_id : option string) (q : string) (e : entry) :
  cache_wf (cache w) ->
  produto_id <> Some q ->
  TTLCache.lookup q (cache (fst (get_reviews g w t_get t_set produto_id)))
  = Some e ->
  TTLCache.lookup q (cache w) = Some e.
Proof.
  intros [Hn _] Hq Hl.
  pose proof (CacheFacts.lookup_has_key _ _ _ Hl) as Hk.
  apply find_some in Hl. destruct Hl as [Hin _].
  rewrite <- Hk. apply CacheInvariant.lookup_unique; [exact Hn|].
  revert Hin.
  get_reviews_cases; cbn [fst cache set_cache log_call]; trivial;
    intros Hin;
    try (apply CacheInvariant.set_entries in Hin;
         destruct Hin as [Hin| ->]; [|simpl in Hk; congruence]);
    replace c1 with (snd (TTLCache.get t_get (String a s) (cache w))) in Hin
      by (now rewrite Hget);
    now apply CacheInvariant.get_entries in Hin.
Qed.

Lemma get_reviews_other_keys_witness :
  TTLCache.lookup "P1" (cache two_products)
  = Some (mkEntry "P1" "Boa compra" 3601).
Proof.
  apply (get_reviews_other_keys numbered two_products 2 3 (Some "P2")
           "P1" (mkEntry "P1" "Boa compra" 3601)).
  - split; [|vm_compute; lia]. vm_compute.
    repeat (constructor; [simpl; intuition discriminate|]). constructor.
  - discriminate.
  - reflexivity.
Defined.

(** ** Expiry and repeated reads *)

(** Once the TTL has elapsed since a summary was written (3600 ticks or
    more after the write), the next [get_reviews] for the product invokes
    the summarizer again, on the same excerpt. *)
Theorem summary_recomputed_after_ttl
        (g : nat -> list json -> option string) (w : World) (t_get t_set : Z)
        (produto_id : option string) (cs : list json) (resumo : string)
        (t_get' t_set' : Z) :
  calls (fst (get_reviews g w t_get t_set produto_id)) = calls w ++ [cs] ->
  g (List.length (calls w)) cs = Some resumo ->
  t_set + 3600 <= t_get' ->
  let w1 := fst (get_reviews g w t_get t_set produto_id) in
  calls (fst (get_reviews g w1 t_get' t_set' produto_id)) = calls w1 ++ [cs].
Proof.
  intros Hcalls Hg Hlate.
  destruct (get_reviews_invoked _ _ _ _ _ _ Hcalls)
    as (docs & p & r & rs & m & -> & Hp & Hc & Hf & Hm & Hcs & Hu).
  rewrite (get_reviews_miss g w t_get t_set p docs r rs m cs Hc Hp Hf Hm Hcs Hu).
  cbv zeta. rewrite Hg. cbn [fst].
  rewrite (get_reviews_miss g _ t_get' t_set' p docs r rs m cs); trivial.
  - cbv zeta.
    match goal with |- context [g ?n cs] => destruct (g n cs) end;
      reflexivity.
  - cbn [cache set_cache].
    rewrite CacheFacts.get_value, CacheFacts.lookup_set.
    unfold TTLCache.live, TTLCache.ttl. cbn [e_expires].
    assert ((t_get' <? t_set + 3600) = false) as -> by (apply Z.ltb_ge; lia).
    reflexivity.
Qed.

Lemma summary_recomputed_after_ttl_witness :
  let w1 := fst (get_reviews numbered two_saved 0 1 (Some "P1")) in
  calls (fst (get_reviews numbered w1 3601 3602 (Some "P1")))
  = calls w1 ++ [[JStr "Loved it"; JStr "It was okay"]].
Proof.
  apply (summary_recomputed_after_ttl numbered two_saved 0 1 (Some "P1")
           [JStr "Loved it"; JStr "It was okay"] "Resumo A" 3601 3602).
  - reflexivity.
  - reflexivity.
  - lia.
Defined.

Lemma matching_valid_nonempty (p : string) (d : doc) :
  valid_record d -> matches_produto p d = true -> p <> EmptyString.
Proof.
  intros ((v & Hv & Ht) & _). unfold matches_produto. rewrite Hv.
  destruct v as [|x|n|s]; try discriminate.
  intros H. apply String.eqb_eq in H. subst s. simpl in Ht.
  destruct (String.eqb_spec p EmptyString); [discriminate|assumption].
Qed.

(** While a non-empty summary of a product is in the cache and live, any
    number of [get_reviews] requests for the product, served one after the
    other on a store of validated records, are all answered with that
    summary and none of them invokes the summarizer. *)
Theorem cached_reads_never_invoke
        (g : nat -> list json -> option string) (lower : string -> string)
        (times : list (Z * Z)) (w : World) (docs : list doc) (p : string)
        (e : entry) :
  collection w = Some docs ->
  Forall valid_record docs ->
  (exists d, In d docs /\ matches_produto p d = true) ->
  TTLCache.lookup p (cache w) = Some e ->
  e_value e <> EmptyString ->
  Forall (fun t => fst t < e_expires e) times ->
  let reqs := map (fun t => GetReviews (Some p) (fst t) (snd t)) times in
  calls (fst (serve g lower w reqs)) = calls w /\
  Forall (fun r => summary_of r = Some (e_value e)) (snd (serve g lower w reqs)).
Proof.
  intros Hc Hv Hsome Hl Hne Htimes. cbv zeta.
  destruct (find_reviews_some _ _ Hsome) as (r & rs & Hf).
  assert (p <> EmptyString) as Hp.
  { destruct Hsome as (d & Hin & Hd). rewrite Forall_forall in Hv.
    exact (matching_valid_nonempty p d (Hv d Hin) Hd). }
  pose proof (find_reviews_valid docs p Hv) as Hvalid. rewrite Hf in Hvalid.
  destruct (compute_media_valid _ _ Hvalid) as (total & Hm & _).
  revert w Hc Hl. induction Htimes as [|[tg ts] times Ht _ IH]; intros w Hc Hl.
  - split; [reflexivity|constructor].
  - cbn [map serve handle fst snd]. simpl in Ht.
    assert (usable (fst (TTLCache.get tg p (cache w))) = Some (e_value e)) as Hu.
    { rewrite CacheFacts.get_value, Hl. unfold TTLCache.live.
      apply Z.ltb_lt in Ht. rewrite Ht. simpl.
      destruct (String.eqb_spec (e_value e) EmptyString); congruence. }
    rewrite (get_reviews_hit g w tg ts p docs r rs _ (e_value e) Hc Hp Hf Hm Hu).
    destruct (IH (set_cache w (snd (TTLCache.get tg p (cache w)))))
      as [Hcalls Hall].
    + exact Hc.
    + cbn [cache set_cache]. now rewrite CacheFacts.lookup_get.
    + destruct (serve g lower _ _) as [w2 rs'] eqn:E. cbn [fst snd] in *.
      split; [exact Hcalls|]. constructor; [reflexivity|exact Hall].
Qed.

Lemma cached_reads_never_invoke_witness :
  let w := fst (get_reviews always_fine two_saved 0 1 (Some "P1")) in
  let reqs := map (fun t => GetReviews (Some "P1") (fst t) (snd t))
                  [(2, 3); (100, 101); (3600, 3600)] in
  calls (fst (serve failing_then_fine lower_ascii w reqs)) = calls w /\
  Forall (fun r => summary_of r
                   = Some (e_value (mkEntry "P1" "Boa compra" 3601)))
         (snd (serve failing_then_fine lower_ascii w reqs)).
Proof.
  apply (cached_reads_never_invoke failing_then_fine lower_ascii
           [(2, 3); (100, 101); (3600, 3600)]
           (fst (get_reviews always_fine two_saved 0 1 (Some "P1")))
           [loved_it; it_was_okay] "P1" (mkEntry "P1" "Boa compra" 3601)).
  - reflexivity.
  - valid_records.
  - exists loved_it. split; [left|]; reflexivity.
  - reflexivity.
  - discriminate.
  - repeat constructor.
Defined.

(** * Floating point: the average *)

(** On every quotient [a / b] with [0 <= a <= 600] and [1 <= b <= 120]
    [py_truediv] is the division of the processor. *)
Lemma py_truediv_is_hardware_division :
  forallb (fun b =>
     forallb (fun a => spec_eqb (to_spec (py_truediv a b)) (hardware_div a b))
             (z_range 0 601))
    (z_range 1 120) = true.
Proof. vm_compute. reflexivity. Qed.

(** And it is the division of the specification of binary64 arithmetic, on
    the quotients by 1 to 40 and by 100. *)
Lemma py_truediv_is_binary64_division :
  forallb (fun b =>
     forallb (fun a => spec_eqb (to_spec (py_truediv a b)) (spec_div a b))
             (z_range 0 601))
    (z_range 1 40 ++ [100]) = true.
Proof. vm_compute. reflexivity. Qed.

(** The example of Python's documentation: [round(2.675, 2)] is 2.67. *)
Example round_2_675 :
  py_round2 (py_truediv 2675 1000) = py_truediv 267 100.
Proof. vm_compute. reflexivity. Qed.

Lemma rne_div_bound (a b : Z) :
  0 < b -> 2 * Z.abs (rne_div a b * b - a) <= b.
Proof.
  intros Hb. unfold rne_div.
  pose proof (Z.div_mod a b) as Hdm.
  pose proof (Z.mod_pos_bound a b Hb) as Hr.
  assert (a = b * (a / b) + a mod b) as Ha by (apply Hdm; lia).
  set (q := a / b) in *. set (r := a mod b) in *.
  destruct (Z.ltb_spec (2 * r) b).
  - replace (q * b - a) with (- r) by lia. rewrite Z.abs_opp, Z.abs_eq; lia.
  - destruct (Z.ltb_spec b (2 * r)).
    + replace ((q + 1) * b - a) with (b - r) by lia. rewrite Z.abs_eq; lia.
    + destruct (Z.even q).
      * replace (q * b - a) with (- r) by lia. rewrite Z.abs_opp, Z.abs_eq; lia.
      * replace ((q + 1) * b - a) with (b - r) by lia. rewrite Z.abs_eq; lia.
Qed.

Lemma ilog2_ratio_small (a b : Z) :
  0 < a -> 0 < b -> a < 8 * b -> ilog2_ratio a b <= 2.
Proof.
  intros Ha Hb Hab. unfold ilog2_ratio.
  destruct (Z.log2_spec a Ha) as [Ha1 Ha2].
  destruct (Z.log2_spec b Hb) as [Hb1 Hb2].
  pose proof (Z.log2_nonneg a) as Hla. pose proof (Z.log2_nonneg b) as Hlb.
  set (la := Z.log2 a) in *. set (lb := Z.log2 b) in *.
  assert (la - lb <= 3) as Hd.
  { assert (2 ^ la < 2 ^ (lb + 4)) as Hpow.
    { replace (lb + 4) with (Z.succ lb + 3) by lia.
      rewrite Z.pow_add_r by lia. change (2 ^ 3) with 8. lia. }
    apply Z.pow_lt_mono_r_iff in Hpow; lia. }
  destruct (Z.leb_spec (b * 2 ^ Z.max 0 (la - lb)) (a * 2 ^ Z.max 0 (- (la - lb))))
    as [Hle|Hgt]; [|lia].
  destruct (Z.eq_dec (la - lb) 3) as [E|E]; [|lia].
  rewrite E in Hle.
  replace (2 ^ Z.max 0 3) with 8 in Hle by reflexivity.
  replace (2 ^ Z.max 0 (- (3))) with 1 in Hle by reflexivity. lia.
Qed.

(** The quotient of [a] by [b], for [0 < a < 8 * b], as a double: a
    mantissa over [2 ^ 49] at least, off the quotient by half a unit of
    the mantissa at most. *)
Lemma py_truediv_small (a b : Z) :
  0 < a -> 0 < b -> a < 8 * b ->
  exists m e,
    py_truediv a b = mkDouble m e /\ e <= -49 /\
    2 * Z.abs (m * b - a * 2 ^ (- e)) <= b.
Proof.
  intros Ha Hb Hab. unfold py_truediv.
  destruct (Z.eqb_spec a 0); [lia|].
  rewrite (Z.sgn_pos a Ha), (Z.sgn_pos b Hb), (Z.abs_eq a), (Z.abs_eq b) by lia.
  pose proof (ilog2_ratio_small a b Ha Hb Hab) as Hj.
  set (e := ilog2_ratio a b - 52) in *.
  assert (e <= -50) as He by (unfold e; lia).
  rewrite (Z.max_r 0 (- e)), (Z.max_l 0 e) by lia.
  rewrite Z.pow_0_r, Z.mul_1_r.
  pose proof (rne_div_bound (a * 2 ^ (- e)) b Hb) as Hm.
  set (m := rne_div (a * 2 ^ (- e)) b) in *.
  destruct (Z.eqb_spec m (2 ^ 53)) as [E|E].
  - exists (1 * 2 ^ 52), (e + 1). split; [reflexivity|]. split; [lia|].
    assert (2 ^ (- e) = 2 * 2 ^ (- (e + 1))) as Hpow.
    { replace (- e) with (Z.succ (- (e + 1))) by lia.
      rewrite Z.pow_succ_r by lia. reflexivity. }
    rewrite E, Hpow in Hm. change (2 ^ 53) with (2 * 2 ^ 52) in Hm.
    replace (2 * 2 ^ 52 * b - a * (2 * 2 ^ (- (e + 1))))
      with (2 * (1 * 2 ^ 52 * b - a * 2 ^ (- (e + 1)))) in Hm by ring.
    rewrite Z.abs_mul in Hm. change (Z.abs 2) with 2 in Hm. lia.
  - exists (1 * m), e. split; [reflexivity|]. split; [lia|].
    now rewrite Z.mul_1_l.
Qed.

(** Rounding a quotient of fewer than [2 ^ 40] ratings to two places never
    leaves the hundredth nearest to the exact quotient by more than a tie:
    [k / 100] is within 0.005 of [a / b]. *)
Lemma hundredths_of_quotient (a b : Z) :
  0 < a -> 0 < b -> a < 8 * b -> b < 2 ^ 40 ->
  2 * Z.abs (100 * a - hundredths (py_truediv a b) * b) <= b.
Proof.
  intros Ha Hb Hab Hsmall.
  destruct (py_truediv_small a b Ha Hb Hab) as (m & e & -> & He & Hm).
  unfold hundredths. cbn [mant expo].
  rewrite (Z.max_r 0 (- e)), (Z.max_l 0 e) by lia.
  rewrite Z.pow_0_r, Z.mul_1_r.
  assert (0 < 2 ^ (- e)) as Hpos by (apply Z.pow_pos_nonneg; lia).
  assert (2 ^ 49 <= 2 ^ (- e)) as Hbig by (apply Z.pow_le_mono_r; lia).
  pose proof (rne_div_bound (100 * m) (2 ^ (- e)) Hpos) as Hk.
  set (D := 2 ^ (- e)) in *. set (k := rne_div (100 * m) D) in *.
  assert (100 * b < D) as H100.
  { change (2 ^ 49) with (512 * 2 ^ 40) in Hbig. lia. }
  assert (2 * Z.abs (100 * a - k * b) * D <= b * D + 100 * b) as Hsum.
  { replace (2 * Z.abs (100 * a - k * b) * D)
      with (2 * Z.abs ((100 * a - k * b) * D))
      by (rewrite Z.abs_mul, (Z.abs_eq D) by lia; ring).
    replace ((100 * a - k * b) * D)
      with (100 * (a * D - m * b) + b * (100 * m - k * D)) by ring.
    pose proof (Z.abs_triangle (100 * (a * D - m * b)) (b * (100 * m - k * D)))
      as Htri.
    rewrite !Z.abs_mul in Htri. rewrite (Z.abs_eq 100), (Z.abs_eq b) in Htri by lia.
    replace (Z.abs (a * D - m * b)) with (Z.abs (m * b - a * D)) in Htri
      by (rewrite <- Z.abs_opp; f_equal; ring).
    replace (Z.abs (100 * m - k * D)) with (Z.abs (k * D - 100 * m)) in Htri
      by (rewrite <- Z.abs_opp; f_equal; ring).
    nia. }
  assert (2 * Z.abs (100 * a - k * b) * D < (b + 1) * D) as Hlt by nia.
  apply Z.mul_lt_mono_pos_r in Hlt; lia.
Qed.

Lemma py_sum_numbers (acc : Z) (notas : list json) (ns : list Z) :
  Forall2 (fun v n => as_number v = Ok n) notas ns ->
  py_sum acc notas = Ok (acc + fold_right Z.add 0 ns).
Proof.
  intros H. revert acc. induction H as [|v n notas ns Hv _ IH]; intros acc.
  - simpl. now rewrite Z.add_0_r.
  - cbn [py_sum fold_right]. rewrite Hv. cbn [bind]. rewrite IH.
    now rewrite Z.add_assoc.
Qed.

(** The average of validated records, with the sum written out. *)
Lemma compute_media_sum (r : doc) (rs : list doc) :
  Forall valid_record (r :: rs) ->
  exists ns,
    Forall2 (fun d n => rating_of d = Some n) (r :: rs) ns /\
    Forall (fun n => 1 <= n <= 5) ns /\
    compute_media (r :: rs)
    = Ok (MediaRound2 (fold_right Z.add 0 ns) (List.length (r :: rs))).
Proof.
  intros H.
  assert (exists notas ns,
            mapM (doc_field "nota") (r :: rs) = Ok notas /\
            Forall2 (fun v n => as_number v = Ok n) notas ns /\
            Forall2 (fun d n => rating_of d = Some n) (r :: rs) ns /\
            Forall (fun n => 1 <= n <= 5) ns) as (notas & ns & Hm & Hn & Hr & Hb).
  { induction H as [|d l (_ & _ & (n & Hn & Hr) & _) _
                      (notas & ns & Hm & Hn' & Hr' & Hb)].
    - exists [], []. repeat split; constructor.
    - pose proof Hn as Hn0. unfold rating_of in Hn.
      cbn [mapM]. unfold doc_field at 1.
      destruct (doc_get "nota" d) as [v|]; [|discriminate].
      rewrite Hm. cbn [bind]. exists (v :: notas), (n :: ns).
      repeat split; try (constructor; assumption).
      constructor; [|exact Hn'].
      destruct v; try discriminate; simpl; congruence. }
  exists ns. split; [exact Hr|]. split; [exact Hb|].
  unfold compute_media. rewrite Hm. cbn [bind].
  pose proof (Forall2_length Hr) as Hl1. pose proof (Forall2_length Hn) as Hl2.
  destruct notas as [|v notas]; [destruct ns; discriminate|].
  rewrite (py_sum_numbers 0 _ _ Hn). cbn [bind].
  now rewrite Z.add_0_l, Hl2, <- Hl1.
Qed.

Lemma sum_of_ratings_bounds (ns : list Z) :
  Forall (fun n => 1 <= n <= 5) ns ->
  Z.of_nat (List.length ns) <= fold_right Z.add 0 ns
  <= 5 * Z.of_nat (List.length ns).
Proof.
  induction 1 as [|n ns Hn _ IH]; [simpl; lia|].
  cbn [fold_right List.length]. rewrite Nat2Z.inj_succ. lia.
Qed.

(** C5, the claim as written fails: 27 reviews rated 3 and 13 rated 2 have
    the mean 107/40 = 2.675 exactly, which rounds to 2.68 (268 hundredths,
    by ties to even and by ties up); [get_reviews] answers with the double
    nearest to 2.67, because the quotient is first rounded to a double,
    which falls below 2.675. *)
Lemma average_of_forty_is_not_the_rounded_mean :
  answer_media (snd (get_reviews always_fine forty_reviews 0 1 (Some "P1")))
  = Some (MediaRound2 107 40) /\
  media_value (MediaRound2 107 40) = py_truediv 267 100 /\
  mean_hundredths_half_even 107 40 = 268 /\
  mean_hundredths_half_up 107 40 = 268 /\
  media_value (MediaRound2 107 40) <> py_truediv 268 100.
Proof.
  vm_compute. repeat split. discriminate.
Qed.

(** C5 (amended): on a connected store of validated records (fewer than
    2^40 of them), the average [get_reviews] answers with is 0 when the
    product has no review; otherwise it is the double nearest to [k / 100]
    for a number of hundredths [k] within 0.005 of the arithmetic mean of
    the ratings of the listed reviews: the mean rounded to two decimal
    places, except that a mean lying exactly halfway between two
    hundredths may go to either of them. *)
Theorem average_is_nearest_hundredth
        (g : nat -> list json -> option string) (w : World) (t_get t_set : Z)
        (produto_id : option string) (docs : list doc)
        (resumo : string) (m : media) (revs : list doc) (st : Z) :
  collection w = Some docs ->
  Forall valid_record docs ->
  Z.of_nat (List.length docs) < 2 ^ 40 ->
  snd (get_reviews g w t_get t_set produto_id)
  = Response (ReviewsBody resumo m revs) st ->
  (revs = [] /\ m = MediaZero /\ media_value m = mkDouble 0 0)
  \/
  (exists ns k,
     revs <> [] /\
     Forall2 (fun d n => rating_of d = Some n) revs ns /\
     media_value m = py_truediv k 100 /\
     2 * Z.abs (100 * fold_right Z.add 0 ns - k * Z.of_nat (List.length revs))
     <= Z.of_nat (List.length revs)).
Proof.
  intros Hc Hv Hlen Hans.
  destruct produto_id as [p|].
  2:{ unfold get_reviews in Hans. rewrite Hc in Hans. discriminate. }
  pose proof (get_reviews_revs g w t_get t_set p docs resumo m revs st Hc Hans)
    as Hrevs.
  destruct (find_reviews docs p) as [|r rs] eqn:Hf.
  - left. subst revs. unfold get_reviews in Hans. rewrite Hc in Hans.
    destruct p as [|a s]; [discriminate|]. rewrite Hf in Hans.
    injection Hans as _ <- _. now repeat split.
  - right. subst revs.
    assert (Forall valid_record (r :: rs)) as Hvalid
      by (rewrite <- Hf; now apply find_reviews_valid).
    destruct (compute_media_sum r rs Hvalid) as (ns & Hr & Hb & Hm).
    destruct (get_reviews_ok g w (fst (get_reviews g w t_get t_set (Some p)))
                t_get t_set p docs r rs resumo m (r :: rs) st Hc Hf)
      as (_ & Hm' & _).
    { rewrite <- Hans. now destruct (get_reviews g w t_get t_set (Some p)). }
    rewrite Hm in Hm'. injection Hm' as <-.
    pose proof (sum_of_ratings_bounds ns Hb) as Hsum.
    pose proof (Forall2_length Hr) as Hl. rewrite <- Hl in Hsum.
    assert (Z.of_nat (List.length (r :: rs)) < 2 ^ 40) as Hsmall.
    { rewrite <- Hf, find_reviews_length.
      pose proof (filter_length_le (matches_produto p) docs). lia. }
    set (n := Z.of_nat (List.length (r :: rs))) in *.
    assert (0 < n) as Hn by (unfold n; cbn [List.length]; lia).
    exists ns, (hundredths (py_truediv (fold_right Z.add 0 ns) n)).
    split; [discriminate|]. split; [exact Hr|]. split; [reflexivity|].
    apply hundredths_of_quotient; lia.
Qed.

Lemma average_is_nearest_hundredth_witness :
  ([loved_it; it_was_okay] = [] /\ MediaRound2 8 2 = MediaZero /\
   media_value (MediaRound2 8 2) = mkDouble 0 0)
  \/
  (exists ns k,
     [loved_it; it_was_okay] <> [] /\
     Forall2 (fun d n => rating_of d = Some n) [loved_it; it_was_okay] ns /\
     media_value (MediaRound2 8 2) = py_truediv k 100 /\
     2 * Z.abs (100 * fold_right Z.add 0 ns
                - k * Z.of_nat (List.length [loved_it; it_was_okay]))
     <= Z.of_nat (List.length [loved_it; it_was_okay])).
Proof.
  apply (average_is_nearest_hundredth always_fine two_saved 0 1 (Some "P1")
           [loved_it; it_was_okay] "Boa compra" (MediaRound2 8 2)
           [loved_it; it_was_okay] 200).
  - reflexivity.
  - valid_records.
  - reflexivity.
  - reflexivity.
Defined.

(** * The store query and the search *)

Lemma insert_desc_perm (key : string) (d : doc) (l : list doc) :
  Permutation (insert_desc key d l) (d :: l).
Proof.
  induction l as [|y l IH]; simpl; [apply Permutation_refl|].
  destruct (bson_leb _ _); [apply Permutation_refl|].
  eapply Permutation_trans; [apply perm_skip, IH|apply perm_swap].
Qed.

Lemma sort_desc_perm (key : string) (l : list doc) :
  Permutation (sort_desc key l) l.
Proof.
  induction l as [|d l IH]; simpl; [constructor|].
  eapply Permutation_trans; [apply insert_desc_perm|now apply perm_skip].
Qed.

Lemma bson_leb_total (a b : json) :
  bson_leb a b = true \/ bson_leb b a = true.
Proof.
  destruct a as [|x|x|x], b as [|y|y|y]; simpl; auto.
  - destruct x, y; auto.
  - destruct (Z.leb_spec x y); [auto|right; apply Z.leb_le; lia].
  - apply String.leb_total.
Qed.

Lemma insert_desc_sorted (d : doc) (l : list doc) :
  Sorted by_data_desc l -> Sorted by_data_desc (insert_desc "data" d l).
Proof.
  induction 1 as [|y l Hl IH Hy]; simpl; [repeat constructor|].
  destruct (bson_leb (dict_get "data" y) (dict_get "data" d)) eqn:E.
  - constructor; [now constructor|]. constructor. exact E.
  - constructor; [exact IH|].
    assert (by_data_desc y d) as Hyd.
    { unfold by_data_desc. destruct (bson_leb_total (dict_get "data" y)
                                       (dict_get "data" d)); congruence. }
    destruct l as [|z l]; simpl; [now constructor|].
    destruct (bson_leb (dict_get "data" z) (dict_get "data" d));
      constructor; [exact Hyd|]. now inversion Hy.
Qed.

(** The store query of lines 145 and 213: the stored records of the
    product and no other, without their [_id], in an order descending on
    ['data']. *)
Lemma find_reviews_spec (docs : list doc) (p : string) :
  Permutation (find_reviews docs p)
              (map (doc_remove "_id") (filter (matches_produto p) docs)) /\
  Sorted by_data_desc (find_reviews docs p).
Proof.
  unfold find_reviews. split; [apply sort_desc_perm|].
  unfold sort_desc.
  induction (map (doc_remove "_id") (filter (matches_produto p) docs))
    as [|d l IH]; simpl; [constructor|].
  now apply insert_desc_sorted.
Qed.

Lemma lower_ascii_app (a b : string) :
  lower_ascii (a ++ b) = (lower_ascii a ++ lower_ascii b)%string.
Proof.
  induction a as [|c a IH]; simpl; [reflexivity|]. now rewrite IH.
Qed.

Lemma lower_ascii_split (s a b : string) :
  lower_ascii s = (a ++ b)%string ->
  exists s1 s2, s = (s1 ++ s2)%string /\ lower_ascii s1 = a /\ lower_ascii s2 = b.
Proof.
  revert s. induction a as [|c a IH]; intros s H.
  - exists EmptyString, s. now repeat split.
  - destruct s as [|c' s]; [discriminate|]. simpl in H.
    injection H as Hc H. destruct (IH s H) as (s1 & s2 & -> & H1 & H2).
    exists (String c' s1), s2. simpl. repeat split; congruence.
Qed.

(** Python's [in] after lowering both sides finds the word in the text up
    to the case of letters. *)
Lemma contains_lower_ascii (word texto : string) :
  contains (lower_ascii word) (lower_ascii texto) = true <->
  occurs_ignoring_case word texto.
Proof.
  rewrite contains_spec. unfold occurs_ignoring_case, same_ignoring_case. split.
  - intros (pre & post & H).
    destruct (lower_ascii_split _ _ _ H) as (s1 & s23 & -> & H1 & H23).
    destruct (lower_ascii_split _ _ _ H23) as (mid & s3 & -> & Hmid & H3).
    now exists s1, mid, s3.
  - intros (pre & mid & post & -> & Hmid).
    exists (lower_ascii pre), (lower_ascii post).
    now rewrite !lower_ascii_app, Hmid.
Qed.

(** C6, the claim as written fails: on a disconnected store an empty
    search term is answered with the 500 of the database guard, not with
    the invalid-argument error; and a stored review whose text is not a
    string makes the search of its product raise instead of returning a
    subset. *)
Lemma search_answers_500_or_raises :
  snd (search_reviews lower_ascii disconnected (Some "P1") (Some EmptyString))
  = Response (ErrorBody "Erro de conexão com o banco de dados") 500 /\
  snd (search_reviews lower_ascii disconnected (Some "P1") (Some EmptyString))
  <> Response (ErrorBody "ID do produto e palavra de busca são obrigatórios") 400 /\
  snd (save_review two_saved numeric_text)
  = Response (MessageBody "Avaliação salva com sucesso") 201 /\
  snd (search_reviews lower_ascii (fst (save_review two_saved numeric_text))
                      (Some "P1") (Some "great"))
  = Raised AttributeError.
Proof.
  repeat split. discriminate.
Qed.

Section SearchOnConnectedStore.

(** [str.lower]; on a string of ASCII characters it changes the letters A
    to Z and nothing else. *)
Variable lower : string -> string.
Hypothesis lower_on_ascii :
  forall s, ascii_only s = true -> lower s = lower_ascii s.

Lemma review_has_ascii (word texto : string) (r : doc) :
  doc_get "avaliacao" r = Some (JStr texto) ->
  ascii_only word = true -> ascii_only texto = true ->
  (review_has lower word r <-> occurs_ignoring_case word texto).
Proof.
  intros Hr Hw Ht. rewrite <- contains_lower_ascii, contains_spec.
  unfold review_has, ci_contains. rewrite Hr. split.
  - intros (texto' & Heq & pre & post & H). injection Heq as <-.
    rewrite !lower_on_ascii in H by assumption. now exists pre, post.
  - intros (pre & post & H). exists texto. split; [reflexivity|].
    exists pre, post. now rewrite !lower_on_ascii.
Qed.

(** C6 (amended): on a connected store [search_reviews] leaves the world
    as it is and answers the same whatever the cache holds; it answers the
    400 of invalid arguments when the product id or the word is missing or
    empty; otherwise, when the texts of the product's stored reviews are
    strings, it answers 200 with the stored reviews of that product and no
    other (without [_id]), in the order of the store query, which is
    descending on ['data'], restricted to those whose lowered text
    contains the lowered word; for a word and a text of ASCII characters
    these are the reviews in whose text the word occurs up to the case of
    letters. *)
Theorem search_reviews_on_connected_store (w : World) (docs : list doc)
        (produto_id palavra : option string) :
  collection w = Some docs ->
  fst (search_reviews lower w produto_id palavra) = w /\
  (forall c, snd (search_reviews lower (set_cache w c) produto_id palavra)
             = snd (search_reviews lower w produto_id palavra)) /\
  (missing_or_empty produto_id \/ missing_or_empty palavra ->
   snd (search_reviews lower w produto_id palavra)
   = Response (ErrorBody "ID do produto e palavra de busca são obrigatórios") 400) /\
  (forall p word,
     produto_id = Some p -> palavra = Some word ->
     p <> EmptyString -> word <> EmptyString ->
     Forall text_is_string (filter (matches_produto p) docs) ->
     exists fetched found,
       snd (search_reviews lower w produto_id palavra)
       = Response (SearchBody found) 200 /\
       Permutation fetched
                   (map (doc_remove "_id") (filter (matches_produto p) docs)) /\
       Sorted by_data_desc fetched /\
       kept_in_order (review_has lower word) fetched found /\
       (forall r texto,
          In r fetched -> doc_get "avaliacao" r = Some (JStr texto) ->
          ascii_only word = true -> ascii_only texto = true ->
          (review_has lower word r <-> occurs_ignoring_case word texto))).
Proof.
  intros Hc.
  assert (forall p word,
            Forall text_is_string (filter (matches_produto p) docs) ->
            exists found,
              filterM (review_matches lower word) (find_reviews docs p) = Ok found /\
              kept_in_order (review_has lower word) (find_reviews docs p) found)
    as Hfilter.
  { intros p word Hwf. apply filterM_kept. apply Forall_forall. intros r Hr.
    apply review_matches_spec.
    apply find_reviews_in in Hr. destruct Hr as (d & Hin & Hm & ->).
    rewrite Forall_forall in Hwf.
    destruct (Hwf d) as [texto Ht]; [apply filter_In; now split|].
    exists texto. rewrite doc_get_remove; [exact Ht|discriminate]. }
  unfold search_reviews. cbn [collection set_cache]. rewrite Hc.
  destruct produto_id as [p|], palavra as [word|]; cbn [absent];
    try (repeat split; try reflexivity; intros; discriminate).
  destruct (String.eqb_spec p EmptyString) as [->|Hp]; cbn [orb].
  { repeat split; try reflexivity. intros p' word' Hp' _ H.
    injection Hp' as <-. now elim H. }
  destruct (String.eqb_spec word EmptyString) as [->|Hword].
  { repeat split; try reflexivity. intros p' word' _ Hw' _ H.
    injection Hw' as <-. now elim H. }
  split; [now destruct (filterM _ _)|].
  split; [intros c; now destruct (filterM _ _)|]. split.
  { intros [[H|H]|[H|H]]; congruence. }
  intros p' word' Hp' Hw' _ _ Hwf. injection Hp' as <-. injection Hw' as <-.
  destruct (Hfilter p word Hwf) as (found & Hfound & Hkept). rewrite Hfound.
  destruct (find_reviews_spec docs p) as [Hperm Hsorted].
  exists (find_reviews docs p), found.
  split; [reflexivity|]. split; [exact Hperm|]. split; [exact Hsorted|].
  split; [exact Hkept|].
  intros r texto _ Hr Hw Ht. now apply review_has_ascii.
Qed.

End SearchOnConnectedStore.

Lemma search_reviews_on_connected_store_witness :
  fst (search_reviews lower_ascii three_reviews (Some "P1") (Some "Great"))
  = three_reviews /\
  (forall c, snd (search_reviews lower_ascii (set_cache three_reviews c)
                                 (Some "P1") (Some "Great"))
             = snd (search_reviews lower_ascii three_reviews
                                   (Some "P1") (Some "Great"))) /\
  (missing_or_empty (Some "P1") \/ missing_or_empty (Some "Great") ->
   snd (search_reviews lower_ascii three_reviews (Some "P1") (Some "Great"))
   = Response (ErrorBody "ID do produto e palavra de busca são obrigatórios") 400) /\
  (forall p word,
     Some "P1" = Some p -> Some "Great" = Some word ->
     p <> EmptyString -> word <> EmptyString ->
     Forall text_is_string
            (filter (matches_produto p) [great_product; awful; not_great]) ->
     exists fetched found,
       snd (search_reviews lower_ascii three_reviews (Some "P1") (Some "Great"))
       = Response (SearchBody found) 200 /\
       Permutation fetched
                   (map (doc_remove "_id")
                        (filter (matches_produto p)
                                [great_product; awful; not_great])) /\
       Sorted by_data_desc fetched /\
       kept_in_order (review_has lower_ascii word) fetched found /\
       (forall r texto,
          In r fetched -> doc_get "avaliacao" r = Some (JStr texto) ->
          ascii_only word = true -> ascii_only texto = true ->
          (review_has lower_ascii word r <-> occurs_ignoring_case word texto))).
Proof.
  apply (search_reviews_on_connected_store lower_ascii
           (fun s _ => eq_refl) three_reviews
           [great_product; awful; not_great] (Some "P1") (Some "Great")).
  reflexivity.
Defined.

(** ** The excerpt of stored reviews *)

(** C9: 25 reviews of P1 are posted to [save_review], each body carrying a
    ['data'] field; the field is not stored, and the summarizer is given
    the texts of the 20 reviews posted first (A to T), not of the 20 most
    recent ones (F to Y). *)
Example summarizer_gets_the_oldest_twenty :
  collection twenty_five_saved = Some (lettered_reviews 25) /\
  calls (fst (get_reviews always_fine twenty_five_saved 0 1 (Some "P1")))
  = [texts (firstn 20 (lettered_reviews 25))] /\
  texts (firstn 20 (lettered_reviews 25))
  = map JStr ["A"; "B"; "C"; "D"; "E"; "F"; "G"; "H"; "I"; "J";
              "K"; "L"; "M"; "N"; "O"; "P"; "Q"; "R"; "S"; "T"] /\
  texts (skipn 5 (lettered_reviews 25))
  = map JStr ["F"; "G"; "H"; "I"; "J"; "K"; "L"; "M"; "N"; "O";
              "P"; "Q"; "R"; "S"; "T"; "U"; "V"; "W"; "X"; "Y"].
Proof.
  vm_compute. repeat split.
Qed.

(** ** save_review: ratings and product ids of another type *)

(** On a connected store, a submission whose product and user are truthy
    and whose rating is missing, null or a string (a rating sent as "5")
    is not answered with the 400 of invalid data: the comparison of line
    92 raises [TypeError], and nothing is written. *)
Theorem save_review_rating_type_error (w : World) (docs : list doc) (data : doc) :
  collection w = Some docs ->
  truthy (dict_get "produto_id" data) = true ->
  truthy (dict_get "nome_usuario" data) = true ->
  (doc_get "nota" data = None \/ doc_get "nota" data = Some JNull \/
   exists s, doc_get "nota" data = Some (JStr s)) ->
  save_review w data = (w, Raised TypeError).
Proof.
  intros Hc Hp Hu Hn. unfold save_review, valid_review.
  rewrite Hc, Hp, Hu. cbn [negb].
  assert (nota_in_range (dict_get "nota" data) = None) as ->; [|reflexivity].
  unfold dict_get. destruct Hn as [->|[->|[s ->]]]; reflexivity.
Qed.

Lemma save_review_rating_type_error_witness :
  save_review two_saved no_nota = (two_saved, Raised TypeError).
Proof.
  apply (save_review_rating_type_error two_saved [loved_it; it_was_okay] no_nota).
  - reflexivity.
  - reflexivity.
  - reflexivity.
  - left. reflexivity.
Defined.

(** A review accepted with a product id that is a number or [true] is
    stored, but no query fetches it: the queries compare the stored id
    with the string of the request, so for every product id of a request
    the fetched reviews are what they were. *)
Theorem numeric_product_never_fetched (w w' : World) (data : doc) (b : body) :
  save_review w data = (w', Response b 201) ->
  ((exists n, dict_get "produto_id" data = JInt n) \/
   dict_get "produto_id" data = JBool true) ->
  exists docs review,
    collection w = Some docs /\ collection w' = Some (docs ++ [review]) /\
    doc_get "produto_id" review = Some (dict_get "produto_id" data) /\
    forall q, find_reviews (docs ++ [review]) q = find_reviews docs q.
Proof.
  intros H Hp.
  destruct (save_review_201 _ _ _ _ H) as (docs & review & Hc & Hc' & Hr & _).
  exists docs, review. split; [exact Hc|]. split; [exact Hc'|].
  subst review. split; [reflexivity|].
  intros q. apply find_reviews_app_other. unfold matches_produto. simpl.
  destruct Hp as [[n ->]| ->]; reflexivity.
Qed.

Lemma numeric_product_never_fetched_witness :
  exists docs review,
    collection connected_empty = Some docs /\
    collection (fst (save_review connected_empty numeric_product))
    = Some (docs ++ [review]) /\
    doc_get "produto_id" review = Some (dict_get "produto_id" numeric_product) /\
    forall q, find_reviews (docs ++ [review]) q = find_reviews docs q.
Proof.
  apply (numeric_product_never_fetched connected_empty
           (fst (save_review connected_empty numeric_product)) numeric_product
           (MessageBody "Avaliação salva com sucesso")).
  - reflexivity.
  - left. exists 7. reflexivity.
Defined.
